(** * Python_Scripts: waveform synthesis and tolerant CSV ingestion

    A shallow embedding of the two pipelines of the repository:

    - [plot_bode_plotly.py]: [sniff_delimiter], [read_labels_and_data] and
      [plot_overlay];
    - [3_Phase_waveforms_3rd.py], [3_Phase_waveforms.py] and [test.py]: the
      time base, the three phase references, the third-harmonic injection,
      the peak normalisation and the line-to-line differences.

    Text is a [string] whose characters are code points below 256.  Python
    floats produced by [float(...)] are IEEE-754 binary64 values
    ([spec_float] with precision 53).  The waveform arithmetic is carried
    out over the real numbers, where the identities between the waveforms
    are exact; the search for the largest sample and the scaling by it are
    modelled a second time on binary64 values, where rounding and
    not-a-number samples show. *)

From Stdlib Require Import ZArith List String Ascii Bool Lia.
From Stdlib Require Import Floats.SpecFloat.
From Stdlib Require Import Reals Lra.
Import ListNotations.

(* ================================================================== *)
(** * Part I: definitions *)
(* ================================================================== *)

(** ** Exceptions

    A computation that may raise returns [Raise e]; one that completes
    returns [Ok a]. *)

Inductive result (E A : Type) : Type :=
  | Ok (a : A)
  | Raise (e : E).

Arguments Ok {E A} a.
Arguments Raise {E A} e.

Definition bind {E A B : Type} (m : result E A) (k : A -> result E B)
  : result E B :=
  match m with
  | Ok a => k a
  | Raise e => Raise e
  end.

Declare Scope result_scope.
Delimit Scope result_scope with result.
Notation "x <- m ;; k" := (bind m (fun x => k))
  (at level 61, m at next level, right associativity) : result_scope.

(** ** Python built-ins used by the scripts *)

Module Py.

Local Open Scope string_scope.

Definition LF : ascii := ascii_of_nat 10.
Definition CR : ascii := ascii_of_nat 13.

Definition code_in (c : ascii) (codes : list nat) : bool :=
  existsb (Nat.eqb (nat_of_ascii c)) codes.

(** [str.isspace] on one code point below 256. *)
Definition isspace (c : ascii) : bool :=
  code_in c [9; 10; 11; 12; 13; 28; 29; 30; 31; 32; 133; 160]%nat.

(** The line boundaries of [str.splitlines] below 256. *)
Definition is_linebreak (c : ascii) : bool :=
  code_in c [10; 11; 12; 13; 28; 29; 30; 133]%nat.

Definition snoc (s : string) (c : ascii) : string := s ++ String c "".

Definition is_empty (s : string) : bool :=
  match s with "" => true | _ => false end.

(** The truth value of a [str]: non-empty. *)
Definition truthy (s : string) : bool := negb (is_empty s).

Fixpoint lstrip_by (p : ascii -> bool) (s : string) : string :=
  match s with
  | "" => ""
  | String c s' => if p c then lstrip_by p s' else s
  end.

Fixpoint rstrip_by (p : ascii -> bool) (s : string) : string :=
  match s with
  | "" => ""
  | String c s' =>
      match rstrip_by p s' with
      | "" => if p c then "" else String c ""
      | r => String c r
      end
  end.

Definition strip_by (p : ascii -> bool) (s : string) : string :=
  rstrip_by p (lstrip_by p s).

(** [s.strip()] *)
Definition strip (s : string) : string := strip_by isspace s.

Fixpoint mem_char (c : ascii) (chars : string) : bool :=
  match chars with
  | "" => false
  | String d chars' => Ascii.eqb c d || mem_char c chars'
  end.

(** [s.strip(chars)] *)
Definition strip_chars (chars : string) (s : string) : string :=
  strip_by (fun c => mem_char c chars) s.

(** [d in s] for a one-character [d]. *)
Definition contains (d : ascii) (s : string) : bool := mem_char d s.

(** [s.startswith(c)] for a one-character prefix. *)
Definition startswith (c : ascii) (s : string) : bool :=
  match s with
  | String d _ => Ascii.eqb d c
  | "" => false
  end.

(** [s.replace(a, b)] for one-character [a] and [b]. *)
Fixpoint replace (a b : ascii) (s : string) : string :=
  match s with
  | "" => ""
  | String c s' => String (if Ascii.eqb c a then b else c) (replace a b s')
  end.

(** [s.split(d)] for a one-character separator. *)
Fixpoint split_go (d : ascii) (cur : string) (s : string) : list string :=
  match s with
  | "" => [cur]
  | String c s' =>
      if Ascii.eqb c d then cur :: split_go d "" s'
      else split_go d (snoc cur c) s'
  end.

Definition split (d : ascii) (s : string) : list string := split_go d "" s.

(** [s.splitlines()]: the lines without their terminators; a carriage
    return followed by a line feed is one boundary, and a trailing boundary
    does not open a last empty line. *)
Fixpoint splitlines_go (after_cr : bool) (cur : string) (s : string)
  : list string :=
  match s with
  | "" => if is_empty cur then [] else [cur]
  | String c s' =>
      if after_cr && Ascii.eqb c LF then splitlines_go false cur s'
      else if is_linebreak c then cur :: splitlines_go (Ascii.eqb c CR) "" s'
      else splitlines_go false (snoc cur c) s'
  end.

Definition splitlines (s : string) : list string := splitlines_go false "" s.

(** [join] on a line feed. *)
Fixpoint join_lines (lines : list string) : string :=
  match lines with
  | [] => ""
  | [l] => l
  | l :: rest => l ++ String LF (join_lines rest)
  end.

(** Iterating a text file opened with an empty [newline]: the lines keep
    their terminators, which are a line feed, a carriage return, or both. *)
Fixpoint readlines_go (after_cr : bool) (cur : string) (s : string)
  : list string :=
  match s with
  | "" => if is_empty cur then [] else [cur]
  | String c s' =>
      if Ascii.eqb c LF then snoc cur c :: readlines_go false "" s'
      else if after_cr then
        cur :: (if Ascii.eqb c CR then readlines_go true (String c "") s'
                else readlines_go false (String c "") s')
      else readlines_go (Ascii.eqb c CR) (snoc cur c) s'
  end.

Definition readlines (s : string) : list string := readlines_go false "" s.

(** [c * n]: the character [c] repeated [n] times. *)
Fixpoint repeat_char (c : ascii) (n : nat) : string :=
  match n with
  | O => ""
  | S n' => String c (repeat_char c n')
  end.

(** [len(s)], as a binary number. *)
Definition len (s : string) : N := N.of_nat (String.length s).

End Py.

(** ** [float(s)]: decimal text to binary64 *)

Module PyFloat.

Local Open Scope string_scope.
Local Open Scope Z_scope.

(** A Python [float]: an IEEE-754 binary64 value. *)
Definition float : Type := spec_float.

Definition prec : Z := 53.
Definition emax : Z := 1024.

(** [float('nan')] *)
Definition nan : float := S754_nan.

(** The binary64 value nearest to [(-1)^neg * m * 10^e], ties to even:
    what the correctly rounded [strtod] behind [float] returns. *)
Definition float_of_decimal (neg : bool) (m : Z) (e : Z) : float :=
  match m with
  | Zpos p =>
      if 0 <=? e then binary_round prec emax neg (p * Z.to_pos (10 ^ e)) 0
      else SFdiv prec emax (S754_finite neg p 0)
                           (S754_finite false (Z.to_pos (10 ^ (- e))) 0)
  | _ => S754_zero neg
  end.

Definition is_digit (c : ascii) : bool :=
  let n := nat_of_ascii c in ((48 <=? n) && (n <=? 57))%nat.

Definition digit_value (c : ascii) : Z := Z.of_nat (nat_of_ascii c) - 48.

Definition underscore : ascii := ascii_of_nat 95.

(** Underscores are accepted between two digits only and are dropped. *)
Fixpoint drop_underscores (prev : ascii) (s : string) : option string :=
  match s with
  | "" => if Ascii.eqb prev underscore then None else Some ""
  | String c s' =>
      if Ascii.eqb c underscore then
        if is_digit prev then drop_underscores c s' else None
      else if Ascii.eqb prev underscore && negb (is_digit c) then None
      else option_map (String c) (drop_underscores c s')
  end.

(** The leading run of digits of [s], folded into [acc], its length added
    to [n], and what follows it. *)
Fixpoint digits (s : string) (acc : Z) (n : Z) : Z * Z * string :=
  match s with
  | String c s' =>
      if is_digit c then digits s' (10 * acc + digit_value c) (n + 1)
      else (acc, n, s)
  | "" => (acc, n, s)
  end.

Definition sign (s : string) : bool * string :=
  match s with
  | String "-" s' => (true, s')
  | String "+" s' => (false, s')
  | _ => (false, s)
  end.

Definition lower (c : ascii) : ascii :=
  let n := nat_of_ascii c in
  if ((65 <=? n) && (n <=? 90))%nat then ascii_of_nat (n + 32) else c.

Fixpoint lower_string (s : string) : string :=
  match s with
  | "" => ""
  | String c s' => String (lower c) (lower_string s')
  end.

(** The exponent part: [e] or [E], an optional sign and at least one
    digit, up to the end of the text. *)
Definition exponent (s : string) : option Z :=
  match s with
  | "" => Some 0
  | String c s' =>
      if Ascii.eqb (lower c) "e" then
        let '(neg, s1) := sign s' in
        match digits s1 0 0 with
        | (v, n, "") => if 0 <? n then Some (if neg then - v else v) else None
        | _ => None
        end
      else None
  end.

(** A decimal number: digits, an optional point and digits, with at least
    one digit in all, then an optional exponent. *)
Definition number (neg : bool) (s : string) : option float :=
  let '(ip, ni, s1) := digits s 0 0 in
  let '(m, nf, s2) :=
    match s1 with
    | String "." s1' => digits s1' ip 0
    | _ => (ip, 0, s1)
    end in
  if 0 <? ni + nf then
    match exponent s2 with
    | Some e => Some (float_of_decimal neg m (e - nf))
    | None => None
    end
  else None.

Definition inf_or_nan (neg : bool) (s : string) : option float :=
  let l := lower_string s in
  if String.eqb l "inf" || String.eqb l "infinity" then Some (S754_infinity neg)
  else if String.eqb l "nan" then Some S754_nan
  else None.

(** [float(s)] for a text [s] without surrounding white space, as both call
    sites pass it; [None] stands for [ValueError]. *)
Definition of_string (s : string) : option float :=
  match drop_underscores Ascii.zero s with
  | None => None
  | Some s0 =>
      let '(neg, s1) := sign s0 in
      match number neg s1 with
      | Some v => Some v
      | None => inf_or_nan neg s1
      end
  end.

End PyFloat.

(** ** The [csv.reader] of the Python standard library *)

Module Csv.

Local Open Scope string_scope.

(** The parser of [_csv.c] as of CPython 3.11, where a NUL character is an
    ordinary one.  The reader is run with the default dialect ([quotechar]
    the double quote, [doublequote] set, no [escapechar], not [strict]) and
    the delimiter given by the caller.  The states of an escape character
    are unreachable without one and are left out. *)
Inductive ParserState :=
  | START_RECORD | START_FIELD | IN_FIELD
  | IN_QUOTED_FIELD | QUOTE_IN_QUOTED_FIELD | EAT_CRNL.

Definition state_eqb (a b : ParserState) : bool :=
  match a, b with
  | START_RECORD, START_RECORD | START_FIELD, START_FIELD
  | IN_FIELD, IN_FIELD | IN_QUOTED_FIELD, IN_QUOTED_FIELD
  | QUOTE_IN_QUOTED_FIELD, QUOTE_IN_QUOTED_FIELD | EAT_CRNL, EAT_CRNL => true
  | _, _ => false
  end.

(** The parser: its state, the fields of the record read so far, and the
    field being collected with the count of its characters. *)
Record ReaderObj := mkReader {
  state : ParserState;
  fields : list string;
  field : string;
  field_len : N
}.

(** [csv.field_size_limit()], which the script leaves at its default. *)
Definition field_limit : N := 131072.

(** What the parser is fed: a character of the line, or the end of it. *)
Inductive input := Char (c : ascii) | EOL.

Definition quotechar : ascii := ascii_of_nat 34.

Definition is_newline (c : ascii) : bool :=
  Ascii.eqb c Py.LF || Ascii.eqb c Py.CR.

Definition parse_reset : ReaderObj :=
  {| state := START_RECORD; fields := []; field := ""; field_len := 0 |}.

Definition parse_save_field (r : ReaderObj) : ReaderObj :=
  {| state := state r; fields := (fields r ++ [field r])%list; field := "";
     field_len := 0 |}.

(** [parse_add_char]: a field that already holds [field_limit] characters
    takes no more; [None] stands for the [csv.Error] raised then. *)
Definition parse_add_char (r : ReaderObj) (c : ascii) : option ReaderObj :=
  if (field_limit <=? field_len r)%N then None
  else Some {| state := state r; fields := fields r;
               field := Py.snoc (field r) c;
               field_len := (field_len r + 1)%N |}.

Definition set_state (r : ReaderObj) (s : ParserState) : ReaderObj :=
  {| state := s; fields := fields r; field := field r;
     field_len := field_len r |}.

(** [parse_add_char] followed by a change of state. *)
Definition add_char_then (r : ReaderObj) (c : ascii) (s : ParserState)
  : option ReaderObj :=
  option_map (fun r' => set_state r' s) (parse_add_char r c).

(** End of a line inside a record: save the field and go on to the next
    record, after the rest of the terminator if there is one. *)
Definition end_of_line (r : ReaderObj) (i : input) : ReaderObj :=
  set_state (parse_save_field r)
            (match i with EOL => START_RECORD | Char _ => EAT_CRNL end).

Definition ends_line (i : input) : bool :=
  match i with EOL => true | Char c => is_newline c end.

Definition start_field (delimiter : ascii) (r : ReaderObj) (i : input)
  : option ReaderObj :=
  match i with
  | EOL => Some (end_of_line r i)
  | Char c =>
      if is_newline c then Some (end_of_line r i)
      else if Ascii.eqb c quotechar then Some (set_state r IN_QUOTED_FIELD)
      else if Ascii.eqb c delimiter then Some (parse_save_field r)
      else add_char_then r c IN_FIELD
  end.

(** [parse_process_char]; [None] stands for [csv.Error]: a field past the
    limit, or a character after a carriage return inside a line. *)
Definition parse_process_char (delimiter : ascii) (r : ReaderObj) (i : input)
  : option ReaderObj :=
  match state r with
  | START_RECORD =>
      match i with
      | EOL => Some r
      | Char c =>
          if is_newline c then Some (set_state r EAT_CRNL)
          else start_field delimiter (set_state r START_FIELD) i
      end
  | START_FIELD => start_field delimiter r i
  | IN_FIELD =>
      match i with
      | EOL => Some (end_of_line r i)
      | Char c =>
          if is_newline c then Some (end_of_line r i)
          else if Ascii.eqb c delimiter then
            Some (set_state (parse_save_field r) START_FIELD)
          else parse_add_char r c
      end
  | IN_QUOTED_FIELD =>
      match i with
      | EOL => Some r
      | Char c =>
          if Ascii.eqb c quotechar then Some (set_state r QUOTE_IN_QUOTED_FIELD)
          else parse_add_char r c
      end
  | QUOTE_IN_QUOTED_FIELD =>
      match i with
      | EOL => Some (end_of_line r i)
      | Char c =>
          if Ascii.eqb c quotechar then add_char_then r c IN_QUOTED_FIELD
          else if Ascii.eqb c delimiter then
            Some (set_state (parse_save_field r) START_FIELD)
          else if is_newline c then Some (end_of_line r i)
          else add_char_then r c IN_FIELD
      end
  | EAT_CRNL =>
      match i with
      | EOL => Some (set_state r START_RECORD)
      | Char c => if is_newline c then Some r else None
      end
  end.

(** The characters of one line, then its end. *)
Fixpoint parse_line (delimiter : ascii) (r : ReaderObj) (line : string)
  : option ReaderObj :=
  match line with
  | "" => parse_process_char delimiter r EOL
  | String c line' =>
      match parse_process_char delimiter r (Char c) with
      | Some r' => parse_line delimiter r' line'
      | None => None
      end
  end.

(** The rows the reader yields over the lines of a file.  A record is
    complete when a line leaves the parser at [START_RECORD]; at the end of
    the input a pending field or an open quote closes the last record. *)
Fixpoint rows_go (delimiter : ascii) (lines : list string) (r : ReaderObj)
  : option (list (list string)) :=
  match lines with
  | [] =>
      if negb (field_len r =? 0)%N || state_eqb (state r) IN_QUOTED_FIELD
      then Some [fields (parse_save_field r)]
      else Some []
  | line :: rest =>
      match parse_line delimiter r line with
      | None => None
      | Some r' =>
          if state_eqb (state r') START_RECORD then
            option_map (cons (fields r')) (rows_go delimiter rest parse_reset)
          else rows_go delimiter rest r'
      end
  end.

(** [list(csv.reader(f, delimiter=delimiter))] for a file [f] of text
    [text] opened with an empty [newline]. *)
Definition reader (delimiter : ascii) (text : string)
  : option (list (list string)) :=
  rows_go delimiter (Py.readlines text) parse_reset.

(** The shape of a line handed over by the file: characters that are not
    line terminators, then terminators only. *)
Fixpoint no_newline (s : string) : bool :=
  match s with
  | "" => true
  | String c s' => negb (is_newline c) && no_newline s'
  end.

Fixpoint only_newlines (s : string) : bool :=
  match s with
  | "" => true
  | String c s' => is_newline c && only_newlines s'
  end.

Fixpoint line_shaped (s : string) : bool :=
  match s with
  | "" => true
  | String c s' => if is_newline c then only_newlines s' else line_shaped s'
  end.

(** What the line being collected looks like: free of terminators, or such
    a text followed by one carriage return. *)
Definition pending (after_cr : bool) (cur : string) : Prop :=
  if after_cr then exists x, no_newline x = true /\ cur = Py.snoc x Py.CR
  else no_newline cur = true.

(** A line with a character after a carriage return, which a file opened
    with an empty [newline] never hands over. *)
Definition broken_line : string := String "a" (String Py.CR "b").

(** The number of characters of the lines together. *)
Definition total_len (lines : list string) : N :=
  fold_right (fun l n => (Py.len l + n)%N) 0%N lines.

End Csv.

(** ** [plot_bode_plotly.py] *)

Module Bode.

Local Open Scope string_scope.

Definition float : Type := PyFloat.float.

(** The exceptions of the ingestor: the three [ValueError]s it raises
    itself, in the order of the [raise] statements, and the [csv.Error] of
    the reader. *)
Inductive IngestError :=
  | EmptyInput            (* "file is empty or only whitespace" *)
  | MissingLabels         (* "expected 2 labels (x, y) in first line" *)
  | InsufficientColumns   (* "expected 2 numeric columns (x, y)" *)
  | CsvError.

Definition tab : ascii := ascii_of_nat 9.
Definition apostrophe : ascii := ascii_of_nat 39.
Definition hash : ascii := ascii_of_nat 35.

(** The delimiters offered to the sniffer and tried by the fallback, in
    this order. *)
Definition delimiters : list ascii := [","; ";"; tab; " "]%char.

(** The characters removed around a label: both kinds of quote. *)
Definition quotes : string := String Csv.quotechar (String apostrophe "").

(** [sniff_delimiter]: [sniff sample] stands for
    [csv.Sniffer().sniff(sample, delimiters=",;\t ").delimiter] and is
    [None] when that call raises. *)
Definition sniff_delimiter (sniff : string -> option ascii) (sample : string)
  : ascii :=
  match sniff sample with
  | Some d => d
  | None =>
      match find (fun d => Py.contains d sample) delimiters with
      | Some d => d
      | None => ","%char
      end
  end.

(** [not row or not any(cell.strip() for cell in row)] *)
Definition row_is_empty (row : list string) : bool :=
  negb (existsb (fun cell => Py.truthy (Py.strip cell)) row).

(** One cell of a data row; [None] when both attempts at [float] raise. *)
Definition coerce_cell (cell : string) : option float :=
  let c := Py.strip cell in
  if Py.is_empty c then Some PyFloat.nan
  else
    match PyFloat.of_string c with
    | Some v => Some v
    | None => PyFloat.of_string (Py.replace "," "." c)
    end.

(** The loop over [row[:2]], started with the cells already converted in
    [numeric]; a cell that cannot be converted empties [numeric] and leaves
    the loop. *)
Fixpoint coerce_cells (cells : list string) (numeric : list float)
  : list float :=
  match cells with
  | [] => numeric
  | cell :: rest =>
      match coerce_cell cell with
      | Some v => coerce_cells rest (numeric ++ [v])%list
      | None => []
      end
  end.

Definition coerce_row (row : list string) : list float :=
  coerce_cells (firstn 2 row) [].

(** [while len(columns) < len(numeric): columns.append([])] *)
Definition grow (columns : list (list float)) (n : nat) : list (list float) :=
  (columns ++ repeat [] (n - List.length columns))%list.

(** [for i, v in enumerate(numeric): columns[i].append(v)], on columns
    that are at least as many as the values. *)
Fixpoint append_values (columns : list (list float)) (numeric : list float)
  : list (list float) :=
  match numeric, columns with
  | v :: numeric', col :: columns' =>
      (col ++ [v])%list :: append_values columns' numeric'
  | _, _ => columns
  end.

Definition first_cell (row : list string) : string :=
  match row with
  | cell :: _ => Py.strip cell
  | [] => ""
  end.

(** The body of [for row in reader], with [skipped_label] and [columns] as
    loop state. *)
Fixpoint scan_rows (rows : list (list string)) (skipped_label : bool)
  (columns : list (list float)) : list (list float) :=
  match rows with
  | [] => columns
  | row :: rest =>
      if row_is_empty row then scan_rows rest skipped_label columns
      else if negb skipped_label then scan_rows rest true columns
      else if Py.startswith hash (first_cell row) then
        scan_rows rest skipped_label columns
      else
        match coerce_row row with
        | [] => scan_rows rest skipped_label columns
        | numeric =>
            scan_rows rest skipped_label
              (append_values (grow columns (List.length numeric)) numeric)
        end
  end.

Definition non_empty_lines (text : string) : list string :=
  filter (fun ln => Py.truthy (Py.strip ln)) (Py.splitlines text).

(** The tokens of the label line, trimmed of white space and of quotes,
    the empty ones removed. *)
Definition header_tokens (delimiter : ascii) (labels_line : string)
  : list string :=
  filter Py.truthy
    (map (fun tok => Py.strip_chars quotes (Py.strip tok))
         (Py.split delimiter labels_line)).

(** [labels]: at most the first two tokens. *)
Definition parse_labels (delimiter : ascii) (labels_line : string)
  : list string :=
  firstn 2 (header_tokens delimiter labels_line).

(** What the library documents of the sniffer: a delimiter it returns is
    one of those it was offered and occurs in the sample. *)
Definition sniffer_sound (sniff : string -> option ascii) : Prop :=
  forall sample d,
    sniff sample = Some d ->
    In d delimiters /\ Py.contains d sample = true.

(** [read_labels_and_data], on the decoded text of the file. *)
Definition read_labels_and_data (sniff : string -> option ascii)
  (text : string) : result IngestError (list string * list (list float)) :=
  match non_empty_lines text with
  | [] => Raise EmptyInput
  | labels_line :: _ =>
      let sample := Py.join_lines (firstn 5 (non_empty_lines text)) in
      let delimiter := sniff_delimiter sniff sample in
      let labels := parse_labels delimiter labels_line in
      match Csv.reader delimiter text with
      | None => Raise CsvError
      | Some rows =>
          let columns := scan_rows rows false [] in
          if (List.length labels <? 2)%nat then Raise MissingLabels
          else if (List.length columns <? 2)%nat then Raise InsufficientColumns
          else Ok (labels, firstn 2 columns)
      end
  end.

(** A candidate file of the overlay: [fp.name], [fp.stem] and its text. *)
Record File := mkFile {
  name : string;
  stem : string;
  content : string
}.

(** A trace added to the figure: [go.Scatter(x=x, y=y, name=fp.stem)]. *)
Record Trace := mkTrace {
  trace_name : string;
  trace_x : list float;
  trace_y : list float
}.

(** What the [except] handler reports: the exception of the ingestor, or
    the failure of [x, y = cols] on other than two columns. *)
Inductive SkipReason :=
  | ParseFailed (e : IngestError)
  | UnpackFailed.

(** The state of the loop of [plot_overlay]: the traces of the figure, the
    axis titles, the count of added files and the lines printed for the
    files skipped. *)
Record Overlay := mkOverlay {
  traces : list Trace;
  x_title : option string;
  y_title : option string;
  added : nat;
  skipped : list (string * SkipReason)
}.

Definition overlay_init : Overlay :=
  {| traces := []; x_title := None; y_title := None; added := 0;
     skipped := [] |}.

Definition is_none {A : Type} (o : option A) : bool :=
  match o with None => true | Some _ => false end.

(** The [except] handler: report the file and go on. *)
Definition skip (st : Overlay) (fp : File) (why : SkipReason) : Overlay :=
  {| traces := traces st; x_title := x_title st; y_title := y_title st;
     added := added st; skipped := (skipped st ++ [(name fp, why)])%list |}.

(** One iteration of [for fp in csv_files]: the [try] body on success, the
    [except] handler otherwise. *)
Definition overlay_step (sniff : string -> option ascii) (st : Overlay)
  (fp : File) : Overlay :=
  match read_labels_and_data sniff (content fp) with
  | Ok (labels, [x; y]) =>
      let titled := is_none (x_title st) && (2 <=? List.length labels)%nat in
      {| traces := (traces st ++ [mkTrace (stem fp) x y])%list;
         x_title := if titled then nth_error labels 0 else x_title st;
         y_title := if titled then nth_error labels 1 else y_title st;
         added := S (added st);
         skipped := skipped st |}
  | Ok (_, _) => skip st fp UnpackFailed
  | Raise e => skip st fp (ParseFailed e)
  end.

Inductive OverlayError := NoUsableInput.   (* "No valid CSV files to plot." *)

(** [plot_overlay] up to the point where the figure is handed to the
    renderer. *)
Definition plot_overlay (sniff : string -> option ascii)
  (csv_files : list File) : result OverlayError Overlay :=
  let st := fold_left (overlay_step sniff) csv_files overlay_init in
  if (added st =? 0)%nat then Raise NoUsableInput else Ok st.

(** The cells converted one by one, when every one of them can be. *)
Fixpoint coerce_all (cells : list string) : option (list float) :=
  match cells with
  | [] => Some []
  | cell :: rest =>
      match coerce_cell cell, coerce_all rest with
      | Some v, Some vs => Some (v :: vs)
      | _, _ => None
      end
  end.

(** Whether the label row has been passed once the rows [before] are
    scanned. *)
Definition label_skipped (before : list (list string)) (skipped_label : bool)
  : bool :=
  skipped_label || existsb (fun row => negb (row_is_empty row)) before.

(** Whether the ingestor returns on a file. *)
Definition parses (sniff : string -> option ascii) (fp : File) : bool :=
  match read_labels_and_data sniff (content fp) with
  | Ok _ => true
  | Raise _ => false
  end.

(** The trace a file contributes: one when it parses, none otherwise. *)
Definition trace_of (sniff : string -> option ascii) (fp : File)
  : list Trace :=
  match read_labels_and_data sniff (content fp) with
  | Ok (_, [x; y]) => [mkTrace (stem fp) x y]
  | _ => []
  end.

(** The report a file contributes: one when the ingestor raises. *)
Definition report_of (sniff : string -> option ascii) (fp : File)
  : list (string * SkipReason) :=
  match read_labels_and_data sniff (content fp) with
  | Raise e => [(name fp, ParseFailed e)]
  | Ok _ => []
  end.

(** The labels of a file that parses. *)
Definition labels_of (sniff : string -> option ascii) (fp : File)
  : list string :=
  match read_labels_and_data sniff (content fp) with
  | Ok (labels, _) => labels
  | Raise _ => []
  end.

(** *** Sample inputs *)

Definition nl : string := String Py.LF "".

(** The sniffer that always gives up, so that the fallback decides. *)
Definition no_sniffer : string -> option ascii := fun _ => None.

(** The text [f,mag / 10,0.5 / 100,0.1], each line ended by a line feed. *)
Definition example_text : string :=
  "f,mag" ++ nl ++ "10,0.5" ++ nl ++ "100,0.1" ++ nl.

(** The floats [10.0], [100.0], [0.5] and [0.1] as binary64 values. *)
Definition f_10 : float := S754_finite false 5629499534213120 (-49).
Definition f_100 : float := S754_finite false 7036874417766400 (-46).
Definition f_0_5 : float := S754_finite false 4503599627370496 (-53).
Definition f_0_1 : float := S754_finite false 7205759403792794 (-56).

(** A header, a full row, and a row of one cell. *)
Definition ragged_text : string :=
  "f,mag" ++ nl ++ "1,2" ++ nl ++ "3" ++ nl.

(** The floats [1.0], [2.0] and [3.0] as binary64 values. *)
Definition f_1 : float := S754_finite false 4503599627370496 (-52).
Definition f_2 : float := S754_finite false 4503599627370496 (-51).
Definition f_3 : float := S754_finite false 6755399441055744 (-51).

(** A label line that starts with the comment marker, two data rows and a
    comment row between them. *)
Definition hash_text : string :=
  String hash "f,mag" ++ nl ++ "1,2" ++ nl ++ String hash "3,4" ++ nl
  ++ "5,6" ++ nl.

Definition f_4 : float := S754_finite false 4503599627370496 (-50).
Definition f_5 : float := S754_finite false 5629499534213120 (-50).
Definition f_6 : float := S754_finite false 6755399441055744 (-50).

(** A header, a data row, and a last line that is one field of [n] letters. *)
Definition long_field (n : nat) : string :=
  "f,mag" ++ nl ++ "1,2" ++ nl ++ Py.repeat_char "a" n.

(** The same with a field of 131073 letters, one more than the reader
    accepts. *)
Definition long_field_text : string := long_field (N.to_nat 131073).

(** A no-break space, which [str.strip] removes and which is no line
    boundary, and a quoted cell that holds nothing else. *)
Definition nbsp : ascii := ascii_of_nat 160.
Definition blank_cell : string :=
  String Csv.quotechar (String nbsp (String Csv.quotechar "")).

(** A label line of two such cells, then three data rows. *)
Definition blank_header_line : string := blank_cell ++ "," ++ blank_cell.
Definition blank_header_text : string :=
  blank_header_line ++ nl ++ "1,2" ++ nl ++ "3,4" ++ nl ++ "5,6" ++ nl.

(** The same rows under a label line of two names. *)
Definition named_header_text : string :=
  "f,mag" ++ nl ++ "1,2" ++ nl ++ "3,4" ++ nl ++ "5,6" ++ nl.

(** Three candidate files: the worked example, an empty file, and the file
    with a label line that starts with the comment marker. *)
Definition candidates : list File :=
  [ mkFile "a.csv" "a" example_text;
    mkFile "b.csv" "b" "";
    mkFile "c.csv" "c" hash_text ].

(** *** Shapes of the columns *)

(** The shape the columns keep: none, one, or two of which the second is
    not longer than the first. *)
Definition columns_ordered (columns : list (list float)) : Prop :=
  match columns with
  | [] => True
  | [x] => True
  | [x; y] => (List.length y <= List.length x)%nat
  | _ => False
  end.

(** Columns of one length: none yet, or two as long as each other. *)
Definition columns_even (columns : list (list float)) : Prop :=
  columns = []
  \/ exists x y, columns = [x; y] /\ List.length x = List.length y.

End Bode.

(** ** Figures: [plot_bode_for_file], the end of [plot_overlay], [main] *)

Module Render.

Import Bode.
Local Open Scope string_scope.

(** An axis as the renderer receives it: its title, when one is set, and
    whether it is logarithmic. *)
Record Axis := mkAxis {
  title_text : option string;
  log_type : bool
}.

Record Figure := mkFigure {
  data : list Trace;
  title : string;
  xaxis : Axis;
  yaxis : Axis
}.

(** [plot_bode_for_file]: the figure and the name of the file written,
    [f"{stem}_bode.html"].  The exception of the ingestor is not caught,
    and each of the two tuple assignments raises on a list that has not
    two elements. *)
Definition plot_bode_for_file (sniff : string -> option ascii) (path : File)
  : result SkipReason (Figure * string) :=
  match read_labels_and_data sniff (content path) with
  | Raise e => Raise (ParseFailed e)
  | Ok (labels, cols) =>
      match cols with
      | [x; y] =>
          match labels with
          | [x_label; y_label] =>
              Ok ({| data := [mkTrace (stem path) x y];
                     title := stem path ++ " Bode Magnitude";
                     xaxis := {| title_text := Some x_label; log_type := true |};
                     yaxis := {| title_text := Some y_label; log_type := false |} |},
                  stem path ++ "_bode.html")
          | _ => Raise UnpackFailed
          end
      | _ => Raise UnpackFailed
      end
  end.

(** [if x_title:] on an optional text. *)
Definition set_title (t : option string) : option string :=
  match t with
  | Some s => if Py.truthy s then Some s else None
  | None => None
  end.

(** The figure of [plot_overlay] after the loop: the x axis is logarithmic
    with or without a title, the y axis keeps its default unless it has a
    title. *)
Definition overlay_figure (st : Overlay) : Figure :=
  {| data := traces st;
     title := "Bode Magnitude (All CSVs)";
     xaxis := {| title_text := set_title (x_title st); log_type := true |};
     yaxis := {| title_text := set_title (y_title st); log_type := false |} |}.

(** [plot_overlay] to its end: the figure and the name of the file
    written when no path is given. *)
Definition plot_overlay_html (sniff : string -> option ascii)
  (csv_files : list File) : result OverlayError (Figure * string) :=
  (st <- plot_overlay sniff csv_files ;;
   Ok (overlay_figure st, "bode_all.html"))%result.

(** The lines printed by [main] and, within it, by [plot_overlay]. *)
Inductive Line :=
  | NoFilesFound                                  (* "No CSV files found ..." *)
  | Found (n : nat)                               (* "Found n CSV file(s) ..." *)
  | Skipping (name : string) (why : SkipReason)   (* "Skipping name: why" *)
  | Combined (name : string)                      (* "Combined -> name" *)
  | Failed (e : OverlayError).                    (* "Failed to create ..." *)

(** [main] on the sorted files its pattern matched: what it prints. *)
Definition main (sniff : string -> option ascii) (csv_files : list File)
  : list Line :=
  match csv_files with
  | [] => [NoFilesFound]
  | _ =>
      let st := fold_left (overlay_step sniff) csv_files overlay_init in
      (Found (List.length csv_files)
       :: map (fun r => Skipping (fst r) (snd r)) (skipped st)
       ++ [match plot_overlay_html sniff csv_files with
           | Ok (_, out) => Combined out
           | Raise e => Failed e
           end])%list
  end.

(** The last character of a text. *)
Fixpoint last_char (s : string) : option ascii :=
  match s with
  | "" => None
  | String c "" => Some c
  | String _ s' => last_char s'
  end.

Definition first_char (s : string) : option ascii :=
  match s with
  | "" => None
  | String c _ => Some c
  end.

(** Whether every character of a text satisfies [p]. *)
Fixpoint all_chars (p : ascii -> bool) (s : string) : bool :=
  match s with
  | "" => true
  | String c s' => p c && all_chars p s'
  end.

End Render.

(** ** The waveform scripts *)

Module Waveforms.

Local Open Scope R_scope.

(** The parameter block at the head of the scripts.  [freq_hz], the peak
    ([phase_leg_peak_v], called [amplitude] in [3_Phase_waveforms.py]) and
    [third_harmonic_ratio] are floats; [cycles] and [samples_per_cycle] are
    integers, as the scripts write them. *)
Record Params := mkParams {
  freq_hz : R;
  phase_leg_peak_v : R;
  cycles : Z;
  samples_per_cycle : Z;
  third_harmonic_ratio : R
}.

Inductive Exception :=
  | ZeroDivisionError   (* float division by zero *)
  | ValueError.         (* a negative sample count, the maximum of no sample *)

Definition res : Type -> Type := result Exception.

(** [a / b] on Python floats. *)
Definition fdiv (a b : R) : res R :=
  if Req_dec_T b 0 then Raise ZeroDivisionError else Ok (a / b).

(** [np.linspace(start, stop, num, endpoint=False)] *)
Definition linspace (start stop : R) (num : Z) : res (list R) :=
  if (num <? 0)%Z then Raise ValueError
  else
    let step := (stop - start) / IZR num in
    Ok (map (fun i => INR i * step + start) (seq 0 (Z.to_nat num))).

(** [T = 1.0 / freq_hz] *)
Definition T (p : Params) : res R := fdiv 1 (freq_hz p).

(** [N = int(cycles * samples_per_cycle)], on integers. *)
Definition N (p : Params) : Z := (cycles p * samples_per_cycle p)%Z.

(** [t = np.linspace(0, cycles * T, N, endpoint=False)] *)
Definition t (p : Params) : res (list R) :=
  (period <- T p ;; linspace 0 (IZR (cycles p) * period) (N p))%result.

(** The three phases, in the order of the [phase_angles] dictionary. *)
Inductive Phase := PhaseA | PhaseB | PhaseC.

Definition phases : list Phase := [PhaseA; PhaseB; PhaseC].

Definition phase_angles (ph : Phase) : R :=
  match ph with
  | PhaseA => 0
  | PhaseB => - 2 * PI / 3
  | PhaseC => 2 * PI / 3
  end.

Definition omega (p : Params) : R := 2 * PI * freq_hz p.

(** Element-wise arithmetic on arrays of one length. *)
Fixpoint zip_with (f : R -> R -> R) (a b : list R) : list R :=
  match a, b with
  | x :: a', y :: b' => f x y :: zip_with f a' b'
  | _, _ => []
  end.

Definition np_add : list R -> list R -> list R := zip_with Rplus.
Definition np_sub : list R -> list R -> list R := zip_with Rminus.
(** [k * a], in exact arithmetic; [Binary64.np_scale] is the rounded
    product. *)
Definition np_scale (k : R) (a : list R) : list R := map (Rmult k) a.
Definition np_abs (a : list R) : list R := map Rabs a.

(** [np.max(a)]: the maximum of an empty array raises. *)
Definition np_max (a : list R) : res R :=
  match a with
  | [] => Raise ValueError
  | x :: a' => Ok (fold_left Rmax a' x)
  end.

(** [np.sin(omega * t + phi)] *)
Definition fundamental (p : Params) (ts : list R) (ph : Phase) : list R :=
  map (fun x => sin (omega p * x + phase_angles ph)) ts.

(** [third_harmonic_ratio * np.sin(3.0 * omega * t)] *)
Definition third_harmonic (p : Params) (ts : list R) : list R :=
  map (fun x => third_harmonic_ratio p * sin (3 * omega p * x)) ts.

(** A dictionary keyed by the three phases. *)
Definition Waves : Type := Phase -> list R.

(** The line-to-line pairs [(pos, neg)]: Vab, Vbc, Vca. *)
Definition line_to_line_pairs : list (Phase * Phase) :=
  [(PhaseA, PhaseB); (PhaseB, PhaseC); (PhaseC, PhaseA)].

(** [phase_waveforms[pos] - phase_waveforms[neg]] for each pair. *)
Definition line_to_line (w : Waves) : list (list R) :=
  map (fun pn => np_sub (w (fst pn)) (w (snd pn))) line_to_line_pairs.

(** [scaling = peak / max_modulation if max_modulation else 1.0] *)
Definition scaling_of (peak max_modulation : R) : R :=
  if Req_dec_T max_modulation 0 then 1 else peak / max_modulation.

(** What a run of a script computes before it draws. *)
Record Output := mkOutput {
  time : list R;
  scaling : R;
  phase_waveforms : Waves;
  voltages : list (list R)
}.

(** *** [3_Phase_waveforms_3rd.py] *)

Module Thi.

Definition combined_waveforms (p : Params) (ts : list R) : Waves :=
  fun ph => np_add (fundamental p ts ph) (third_harmonic p ts).

(** [max(np.max(np.abs(wave)) for wave in combined_waveforms.values())] *)
Definition max_modulation (w : Waves) : res R :=
  (a <- np_max (np_abs (w PhaseA)) ;;
   b <- np_max (np_abs (w PhaseB)) ;;
   c <- np_max (np_abs (w PhaseC)) ;;
   Ok (Rmax (Rmax a b) c))%result.

Definition run (p : Params) : res Output :=
  (ts <- t p ;;
   m <- max_modulation (combined_waveforms p ts) ;;
   let scaling := scaling_of (phase_leg_peak_v p) m in
   let phase_waveforms : Waves :=
     fun ph => np_scale scaling (combined_waveforms p ts ph) in
   Ok {| time := ts; scaling := scaling;
         phase_waveforms := phase_waveforms;
         voltages := line_to_line phase_waveforms |})%result.

End Thi.

(** *** [3_Phase_waveforms.py] *)

Module Plain.

(** [np.sin(omega * t + phi) + third_harmonic] *)
Definition combined (p : Params) (ts : list R) (ph : Phase) : list R :=
  np_add (fundamental p ts ph) (third_harmonic p ts).

(** The loop [max_modulation = max(max_modulation, np.max(np.abs(combined)))]
    over the phases, from [0.0].  On real numbers the built-in [max] is the
    maximum; [Binary64.Plain.max_modulation_loop] has the comparison the
    built-in makes, which not-a-number samples defeat. *)
Fixpoint max_modulation_loop (p : Params) (ts : list R) (phs : list Phase)
  (max_modulation : R) : res R :=
  match phs with
  | [] => Ok max_modulation
  | ph :: phs' =>
      (m <- np_max (np_abs (combined p ts ph)) ;;
       max_modulation_loop p ts phs' (Rmax max_modulation m))%result
  end.

Definition run (p : Params) : res Output :=
  (ts <- t p ;;
   m <- max_modulation_loop p ts phases 0 ;;
   let scaling := scaling_of (phase_leg_peak_v p) m in
   let phase_waveforms : Waves :=
     fun ph =>
       np_scale scaling (np_add (fundamental p ts ph) (third_harmonic p ts)) in
   Ok {| time := ts; scaling := scaling;
         phase_waveforms := phase_waveforms;
         voltages := line_to_line phase_waveforms |})%result.

End Plain.

(** The same phases scaled by [k] without the third-harmonic term. *)
Definition scaled_fundamentals (p : Params) (ts : list R) (k : R) : Waves :=
  fun ph => np_scale k (fundamental p ts ph).


(** *** Sample parameters *)

(** A run of either script on one cycle of one sample: the time base is the
    single instant 0. *)
Definition one_sample : Params :=
  {| freq_hz := 1; phase_leg_peak_v := 230; cycles := 1;
     samples_per_cycle := 1; third_harmonic_ratio := 1 / 6 |}.


(** A negative number of cycles with the other parameters of the scripts. *)
Definition negative_cycles : Params :=
  {| freq_hz := 50; phase_leg_peak_v := 230; cycles := -2;
     samples_per_cycle := 400; third_harmonic_ratio := 1 / 6 |}.

(** A negative frequency and no cycle at all: the time base is empty. *)
Definition reversed_no_cycle : Params :=
  {| freq_hz := -50; phase_leg_peak_v := 230; cycles := 0;
     samples_per_cycle := 400; third_harmonic_ratio := 1 / 6 |}.

(** *** Samples by index *)

(** The electrical angle of sample [i]: [i] steps of a cycle divided in
    [samples_per_cycle]. *)
Definition sample_angle (p : Params) (i : nat) : R :=
  2 * PI * INR i / IZR (samples_per_cycle p).

(** The unscaled reference of a phase at sample [i]. *)
Definition reference (p : Params) (ph : Phase) (i : nat) : R :=
  sin (sample_angle p i + phase_angles ph)
  + third_harmonic_ratio p * sin (3 * sample_angle p i).



(** One sample without injection. *)
Definition one_sample_plain : Params :=
  {| freq_hz := 1; phase_leg_peak_v := 230; cycles := 1;
     samples_per_cycle := 1; third_harmonic_ratio := 0 |}.

End Waveforms.

(** ** The normalisation of the waveform scripts in binary64

    The statements that find [max_modulation] and scale the phases by it,
    on the binary64 samples the scripts hold.  The combined waveforms are
    the input: the sine of the C library is not modelled. *)

Module Binary64.

Import Waveforms.
Local Open Scope Z_scope.

Definition float : Type := PyFloat.float.

Definition zero : float := S754_zero false.                          (* 0.0 *)
Definition one : float := S754_finite false 4503599627370496 (-52).  (* 1.0 *)
Definition nan : float := S754_nan.

Definition mul (x y : float) : float := SFmul PyFloat.prec PyFloat.emax x y.
Definition div (x y : float) : float := SFdiv PyFloat.prec PyFloat.emax x y.

(** [x > y], which is false when either side is not a number. *)
Definition gt (x y : float) : bool := SFltb y x.

Definition is_nan (x : float) : bool :=
  match x with S754_nan => true | _ => false end.

(** The truth value of a float: not zero; not-a-number is true. *)
Definition truthy (x : float) : bool :=
  match x with S754_zero _ => false | _ => true end.

(** The built-in [max(a, b)]: [b] when [b > a], otherwise [a]. *)
Definition py_max (a b : float) : float := if gt b a then b else a.

(** [np.maximum(a, b)], which [np.max] folds over an array: not-a-number
    wins. *)
Definition maximum (a b : float) : float :=
  if is_nan a then a else if is_nan b then b else if gt b a then b else a.

Definition np_abs (a : list float) : list float := map SFabs a.

(** [np.max(a)]: the maximum of an empty array raises. *)
Definition np_max (a : list float) : res float :=
  match a with
  | [] => Raise ValueError
  | x :: a' => Ok (fold_left maximum a' x)
  end.

(** [scaling * raw_wave] *)
Definition np_scale (k : float) (a : list float) : list float := map (mul k) a.

(** The combined waveforms, keyed by the three phases. *)
Definition Waves : Type := Phase -> list float.

(** [scaling = peak / max_modulation if max_modulation else 1.0] *)
Definition scaling_of (peak max_modulation : float) : float :=
  if truthy max_modulation then div peak max_modulation else one.

(** *** [3_Phase_waveforms_3rd.py] *)

Module Thi.

(** [max(np.max(np.abs(wave)) for wave in combined_waveforms.values())]:
    the built-in [max] keeps its first item until a later one is greater. *)
Definition max_modulation (w : Waves) : res float :=
  (a <- np_max (np_abs (w PhaseA)) ;;
   b <- np_max (np_abs (w PhaseB)) ;;
   c <- np_max (np_abs (w PhaseC)) ;;
   Ok (py_max (py_max a b) c))%result.

Definition scaling (peak : float) (w : Waves) : res float :=
  (m <- max_modulation w ;; Ok (scaling_of peak m))%result.

(** [phase_waveforms[name] = scaling * raw_wave] *)
Definition phase_waveforms (peak : float) (w : Waves) : res Waves :=
  (k <- scaling peak w ;; Ok (fun ph => np_scale k (w ph)))%result.

End Thi.

(** *** [3_Phase_waveforms.py] *)

Module Plain.

(** The loop [max_modulation = max(max_modulation, np.max(np.abs(combined)))]
    over the phases. *)
Fixpoint max_modulation_loop (w : Waves) (phs : list Phase)
  (max_modulation : float) : res float :=
  match phs with
  | [] => Ok max_modulation
  | ph :: phs' =>
      (m <- np_max (np_abs (w ph)) ;;
       max_modulation_loop w phs' (py_max max_modulation m))%result
  end.

(** The loop is entered with [max_modulation = 0.0]. *)
Definition max_modulation (w : Waves) : res float :=
  max_modulation_loop w phases zero.

Definition scaling (peak : float) (w : Waves) : res float :=
  (m <- max_modulation w ;; Ok (scaling_of peak m))%result.

Definition phase_waveforms (peak : float) (w : Waves) : res Waves :=
  (k <- scaling peak w ;; Ok (fun ph => np_scale k (w ph)))%result.

End Plain.

(** A value that is neither negative nor not-a-number, as an absolute
    value is. *)
Definition nonneg (x : float) : Prop :=
  match x with
  | S754_zero false | S754_infinity false | S754_finite false _ _ => True
  | _ => False
  end.

(** *** Sample values *)

(** [225.0], and the sine of [2.0 * np.pi / 3.0], [0.8660254037844387]. *)
Definition f_225 : float := S754_finite false 7916483719987200 (-45).
Definition sin_120 : float := S754_finite false 7800463371553963 (-53).


(** The combined waveforms of a run of one sample, at the instant 0: the
    injected harmonic is zero there and the phases are the sines of 0, of
    -120 and of +120 degrees. *)
Definition one_sample_waves : Waves :=
  fun ph =>
    match ph with
    | PhaseA => [zero]
    | PhaseB => [SFopp sin_120]
    | PhaseC => [sin_120]
    end.

(** Three phases of one not-a-number sample each, as when [omega]
    overflows. *)
Definition nan_waves : Waves := fun _ => [nan].

End Binary64.

(** ** The metrics of [3_Phase_waveforms_3rd.py] and the waves of [test.py] *)

Module Metrics.

Import Waveforms.
Local Open Scope R_scope.

(** The values computed for the annotation; [None] stands for the
    not-a-number value. *)
Record Metrics := mkMetrics {
  fundamental_peak : R;
  line_to_line_peak : R;
  line_to_line_rms : R;
  baseline_line_to_line_peak : R;
  boost_ratio : option R;
  boost_percent : option R
}.

(** The block after the traces, from the [scaling] of the run. *)
Definition metrics (p : Params) (scaling : R) : Metrics :=
  let fundamental_peak := scaling in
  let line_to_line_peak := sqrt 3 * fundamental_peak in
  let line_to_line_rms := line_to_line_peak / sqrt 2 in
  let baseline_line_to_line_peak := sqrt 3 * phase_leg_peak_v p in
  let boost_ratio :=
    if Req_dec_T baseline_line_to_line_peak 0 then None
    else Some (line_to_line_peak / baseline_line_to_line_peak) in
  let boost_percent := option_map (fun r => (r - 1) * 100) boost_ratio in
  {| fundamental_peak := fundamental_peak;
     line_to_line_peak := line_to_line_peak;
     line_to_line_rms := line_to_line_rms;
     baseline_line_to_line_peak := baseline_line_to_line_peak;
     boost_ratio := boost_ratio;
     boost_percent := boost_percent |}.

(** The run of [3_Phase_waveforms_3rd.py] with its metrics. *)
Definition run (p : Params) : res (Output * Metrics) :=
  (out <- Thi.run p ;; Ok (out, metrics p (scaling out)))%result.

End Metrics.

Module TestScript.

Import Waveforms.
Local Open Scope R_scope.

(** [y = amplitude * np.sin(2.0 * np.pi * freq_hz * t + phi)]; the
    amplitude is the peak field of the parameters. *)
Definition wave (p : Params) (ts : list R) (ph : Phase) : list R :=
  map (fun x => phase_leg_peak_v p * sin (2 * PI * freq_hz p * x + phase_angles ph))
      ts.

(** The time base and the three traces of [test.py]. *)
Definition run (p : Params) : res (list R * Waves) :=
  (ts <- t p ;; Ok (ts, wave p ts))%result.

End TestScript.

(* ================================================================== *)
(** * Part II: properties *)
(* ================================================================== *)

(** ** The time base, the normalisation and the line-to-line voltages *)

Module WaveformFacts.

Import Waveforms.
Local Open Scope R_scope.

(** *** The time base *)

Lemma T_nonzero p : freq_hz p <> 0 -> T p = Ok (1 / freq_hz p).
Proof.
  intros Hf. unfold T, fdiv. destruct (Req_dec_T (freq_hz p) 0); [contradiction | reflexivity].
Qed.

Lemma T_zero p : freq_hz p = 0 -> T p = Raise ZeroDivisionError.
Proof.
  intros Hf. unfold T, fdiv. destruct (Req_dec_T (freq_hz p) 0); [reflexivity | contradiction].
Qed.

Lemma linspace_length start stop num ts :
  linspace start stop num = Ok ts -> Z.of_nat (List.length ts) = num.
Proof.
  unfold linspace. destruct (Z.ltb_spec num 0) as [Hn | Hn]; [discriminate |].
  intros [= <-]. rewrite length_map, length_seq. lia.
Qed.

Lemma linspace_nth start stop num ts i :
  linspace start stop num = Ok ts ->
  (i < List.length ts)%nat ->
  nth i ts 0 = INR i * ((stop - start) / IZR num) + start.
Proof.
  unfold linspace. destruct (Z.ltb_spec num 0) as [Hn | Hn]; [discriminate |].
  intros [= <-] Hi. rewrite length_map, length_seq in Hi.
  set (f := fun j : nat => _).
  rewrite (nth_indep _ 0 (f 0%nat)) by (rewrite length_map, length_seq; exact Hi).
  rewrite map_nth, seq_nth by exact Hi. reflexivity.
Qed.

Lemma t_ok p :
  freq_hz p <> 0 -> (0 <= N p)%Z ->
  t p = Ok (map (fun i => INR i * ((IZR (cycles p) * (1 / freq_hz p) - 0) / IZR (N p)) + 0)
                (seq 0 (Z.to_nat (N p)))).
Proof.
  intros Hf Hn. unfold t. rewrite T_nonzero by exact Hf. simpl.
  unfold linspace. destruct (Z.ltb_spec (N p) 0); [lia | reflexivity].
Qed.



Lemma t_one_sample : t one_sample = Ok [0].
Proof.
  rewrite t_ok; simpl; [| lra | unfold N; simpl; lia].
  do 2 f_equal. unfold N. simpl. lra.
Qed.




Lemma negative_cycles_raises :
  (N negative_cycles < 0)%Z /\ t negative_cycles = Raise ValueError.
Proof.
  split; [unfold N; simpl; lia |].
  unfold t. rewrite T_nonzero by (simpl; lra). reflexivity.
Qed.




(** *** Maxima of arrays *)

Lemma fold_max_ge_acc l : forall x, x <= fold_left Rmax l x.
Proof.
  induction l as [| y l IH]; intros x; simpl; [lra |].
  apply Rle_trans with (Rmax x y); [apply Rmax_l | apply IH].
Qed.

Lemma fold_max_ge_in l : forall x y, In y l -> y <= fold_left Rmax l x.
Proof.
  induction l as [| z l IH]; intros x y Hin; simpl; [contradiction |].
  destruct Hin as [-> | Hin].
  - apply Rle_trans with (Rmax x y); [apply Rmax_r | apply fold_max_ge_acc].
  - apply IH. exact Hin.
Qed.

Lemma fold_max_attained l : forall x,
  fold_left Rmax l x = x \/ In (fold_left Rmax l x) l.
Proof.
  induction l as [| y l IH]; intros x; simpl; [left; reflexivity |].
  destruct (IH (Rmax x y)) as [E | Hin].
  - rewrite E. unfold Rmax. destruct (Rle_dec x y); [right; left | left]; reflexivity.
  - right. right. exact Hin.
Qed.




Lemma np_max_abs_nonneg a m : np_max (np_abs a) = Ok m -> 0 <= m.
Proof.
  destruct a as [| x a]; simpl; [discriminate |].
  intros [= <-]. apply Rle_trans with (Rabs x);
    [apply Rabs_pos | apply fold_max_ge_acc].
Qed.

Lemma np_max_abs_bound a m x :
  np_max (np_abs a) = Ok m -> In x a -> Rabs x <= m.
Proof.
  destruct a as [| y a]; simpl; [discriminate |].
  intros [= <-] [-> | Hin].
  - apply fold_max_ge_acc.
  - apply fold_max_ge_in. apply in_map. exact Hin.
Qed.

Lemma np_max_abs_attained a m :
  np_max (np_abs a) = Ok m -> exists x, In x a /\ Rabs x = m.
Proof.
  destruct a as [| y a]; simpl; [discriminate |].
  intros [= <-]. destruct (fold_max_attained (map Rabs a) (Rabs y)) as [E | Hin].
  - exists y. split; [left; reflexivity | symmetry; exact E].
  - apply in_map_iff in Hin as (x & Hx & Hin).
    exists x. split; [right; exact Hin | exact Hx].
Qed.

(** *** The peak over the three phases *)

Lemma max_modulation_inv (w : Waves) m :
  Thi.max_modulation w = Ok m ->
  exists a b c,
    np_max (np_abs (w PhaseA)) = Ok a /\
    np_max (np_abs (w PhaseB)) = Ok b /\
    np_max (np_abs (w PhaseC)) = Ok c /\
    m = Rmax (Rmax a b) c.
Proof.
  unfold Thi.max_modulation.
  destruct (np_max (np_abs (w PhaseA))) as [a |]; simpl; [| discriminate].
  destruct (np_max (np_abs (w PhaseB))) as [b |]; simpl; [| discriminate].
  destruct (np_max (np_abs (w PhaseC))) as [c |]; simpl; [| discriminate].
  intros [= <-]. exists a, b, c. repeat split; reflexivity.
Qed.



Lemma max_modulation_bound (w : Waves) m ph x :
  Thi.max_modulation w = Ok m -> In x (w ph) -> Rabs x <= m.
Proof.
  intros H Hin. apply max_modulation_inv in H as (a & b & c & Ha & Hb & Hc & ->).
  destruct ph.
  - apply Rle_trans with a; [exact (np_max_abs_bound _ _ _ Ha Hin) |].
    apply Rle_trans with (Rmax a b); apply Rmax_l.
  - apply Rle_trans with b; [exact (np_max_abs_bound _ _ _ Hb Hin) |].
    apply Rle_trans with (Rmax a b); [apply Rmax_r | apply Rmax_l].
  - apply Rle_trans with c; [exact (np_max_abs_bound _ _ _ Hc Hin) |].
    apply Rmax_r.
Qed.

Lemma max_modulation_attained (w : Waves) m :
  Thi.max_modulation w = Ok m -> exists ph x, In x (w ph) /\ Rabs x = m.
Proof.
  intros H. apply max_modulation_inv in H as (a & b & c & Ha & Hb & Hc & ->).
  apply np_max_abs_attained in Ha as (xa & Hxa & <-).
  apply np_max_abs_attained in Hb as (xb & Hxb & <-).
  apply np_max_abs_attained in Hc as (xc & Hxc & <-).
  unfold Rmax at 1.
  destruct (Rle_dec _ _); [exists PhaseC, xc; split; [exact Hxc | reflexivity] |].
  unfold Rmax. destruct (Rle_dec _ _).
  - exists PhaseB, xb. split; [exact Hxb | reflexivity].
  - exists PhaseA, xa. split; [exact Hxa | reflexivity].
Qed.

(** The loop of [3_Phase_waveforms.py] finds the same maximum as the
    generator expression of [3_Phase_waveforms_3rd.py]. *)
Lemma max_modulation_loop_eq p ts :
  Plain.max_modulation_loop p ts phases 0
  = Thi.max_modulation (Thi.combined_waveforms p ts).
Proof.
  unfold Thi.max_modulation, phases. simpl.
  change (Plain.combined p ts) with (Thi.combined_waveforms p ts).
  destruct (np_max (np_abs (Thi.combined_waveforms p ts PhaseA))) as [a |] eqn:Ha;
    simpl; [| reflexivity].
  destruct (np_max (np_abs (Thi.combined_waveforms p ts PhaseB))) as [b |];
    simpl; [| reflexivity].
  destruct (np_max (np_abs (Thi.combined_waveforms p ts PhaseC))) as [c |];
    simpl; [| reflexivity].
  apply np_max_abs_nonneg in Ha.
  rewrite (Rmax_right 0 a) by exact Ha. reflexivity.
Qed.

Lemma run_eq p : Plain.run p = Thi.run p.
Proof.
  unfold Plain.run, Thi.run. destruct (t p) as [ts |]; [| reflexivity].
  cbn [bind]. rewrite max_modulation_loop_eq. reflexivity.
Qed.

Lemma run_ok p ts m :
  t p = Ok ts ->
  Thi.max_modulation (Thi.combined_waveforms p ts) = Ok m ->
  Thi.run p =
  Ok {| time := ts;
        scaling := scaling_of (phase_leg_peak_v p) m;
        phase_waveforms := fun ph =>
          np_scale (scaling_of (phase_leg_peak_v p) m)
                   (Thi.combined_waveforms p ts ph);
        voltages := line_to_line (fun ph =>
          np_scale (scaling_of (phase_leg_peak_v p) m)
                   (Thi.combined_waveforms p ts ph)) |}.
Proof.
  intros Ht Hm. unfold Thi.run. rewrite Ht. simpl. rewrite Hm. reflexivity.
Qed.

Lemma run_inv p out :
  Thi.run p = Ok out ->
  exists ts m,
    t p = Ok ts /\
    Thi.max_modulation (Thi.combined_waveforms p ts) = Ok m /\
    time out = ts /\
    scaling out = scaling_of (phase_leg_peak_v p) m /\
    phase_waveforms out =
      (fun ph => np_scale (scaling out) (Thi.combined_waveforms p ts ph)) /\
    voltages out = line_to_line (phase_waveforms out).
Proof.
  unfold Thi.run. destruct (t p) as [ts |]; simpl; [| discriminate].
  destruct (Thi.max_modulation (Thi.combined_waveforms p ts)) as [m |] eqn:Hm;
    simpl; [| discriminate].
  intros [= <-]. exists ts, m. simpl. repeat split; try reflexivity. exact Hm.
Qed.

Lemma scaling_nonzero peak m : m <> 0 -> scaling_of peak m = peak / m.
Proof.
  intros Hm. unfold scaling_of. destruct (Req_dec_T m 0); [contradiction | reflexivity].
Qed.



(** On [one_sample] phase C is [sin (2 PI / 3)], which is positive, so the
    maximum found is not zero. *)
Lemma one_sample_max_modulation :
  exists m,
    Thi.max_modulation (Thi.combined_waveforms one_sample [0]) = Ok m
    /\ m <> 0.
Proof.
  eexists. split; [unfold Thi.max_modulation; simpl; reflexivity |].
  match goal with |- ?m <> 0 => assert (H : 0 < m); [| lra] end.
  eapply Rlt_le_trans; [| apply Rmax_r].
  unfold omega. simpl.
  replace (2 * PI * 1 * 0 + 2 * PI / 3) with (2 * PI / 3) by lra.
  replace (3 * (2 * PI * 1) * 0) with 0 by lra.
  rewrite sin_0.
  replace (sin (2 * PI / 3) + 1 / 6 * 0) with (sin (2 * PI / 3)) by lra.
  assert (Hs : 0 < sin (2 * PI / 3)).
  { pose proof PI_RGT_0. apply sin_gt_0; lra. }
  rewrite Rabs_right; lra.
Qed.



(** *** Line-to-line differences *)





End WaveformFacts.

(** ** The normalisation in binary64 *)

Module Binary64Facts.

Import Waveforms Binary64.

Lemma abs_nonneg x : is_nan x = false -> nonneg (SFabs x).
Proof. destruct x; simpl; intros H; [exact I | exact I | discriminate | exact I]. Qed.

Lemma nonneg_not_nan x : nonneg x -> is_nan x = false.
Proof. destruct x as [[] | [] | | [] m e]; simpl; intros H; (reflexivity || contradiction). Qed.

Lemma maximum_nonneg a b : nonneg a -> nonneg b -> nonneg (maximum a b).
Proof.
  intros Ha Hb. unfold maximum.
  rewrite (nonneg_not_nan a Ha), (nonneg_not_nan b Hb).
  destruct (gt b a); assumption.
Qed.

Lemma fold_maximum_nonneg l : forall x,
  nonneg x -> (forall y, In y l -> nonneg y) -> nonneg (fold_left maximum l x).
Proof.
  induction l as [| y l IH]; intros x Hx Hl; simpl; [exact Hx |].
  apply IH.
  - apply maximum_nonneg; [exact Hx | apply Hl; left; reflexivity].
  - intros z Hz. apply Hl. right. exact Hz.
Qed.

(** The largest absolute value of an array without not-a-number is
    neither negative nor not-a-number. *)
Lemma abs_max_nonneg a m :
  (forall x, In x a -> is_nan x = false) ->
  np_max (np_abs a) = Ok m -> nonneg m.
Proof.
  destruct a as [| x a]; simpl; intros Ha H; [discriminate |].
  injection H as <-. apply fold_maximum_nonneg.
  - apply abs_nonneg. apply Ha. left. reflexivity.
  - intros y Hy. unfold np_abs in Hy. apply in_map_iff in Hy as (z & <- & Hz).
    apply abs_nonneg. apply Ha. right. exact Hz.
Qed.

(** Against [0.0], the built-in [max] returns such a value. *)
Lemma py_max_zero a : nonneg a -> py_max zero a = a.
Proof. destruct a as [[] | [] | | [] m e]; simpl; intros H; (reflexivity || contradiction). Qed.

Lemma fold_maximum_nan_acc l : fold_left maximum l nan = nan.
Proof. induction l as [| y l IH]; simpl; [reflexivity | exact IH]. Qed.

Lemma fold_maximum_nan l : forall x,
  In nan (x :: l) -> fold_left maximum l x = nan.
Proof.
  induction l as [| y l IH]; intros x H.
  - destruct H as [-> | []]. reflexivity.
  - cbn [fold_left]. destruct H as [-> | [-> | H]].
    + apply fold_maximum_nan_acc.
    + replace (maximum x nan) with nan by (destruct x; reflexivity).
      apply fold_maximum_nan_acc.
    + apply IH. right. exact H.
Qed.

(** [np.max] of the absolute values of an array that holds a not-a-number
    is not a number. *)
Lemma np_max_abs_nan a : In nan a -> np_max (np_abs a) = Ok nan.
Proof.
  intros H. assert (Hn : In nan (np_abs a)).
  { unfold np_abs. apply in_map_iff. exists nan. split; [reflexivity | exact H]. }
  destruct (np_abs a) as [| x l]; [contradiction |].
  simpl. f_equal. apply fold_maximum_nan. exact Hn.
Qed.

Lemma div_nan x : div x nan = nan.
Proof. destruct x; reflexivity. Qed.


(** X3.  In binary64 the two scripts find the same [max_modulation], and
    with it the same scaling, whenever no sample of the first phase is
    not-a-number.  When every phase holds a not-a-number sample they part: in
    [3_Phase_waveforms_3rd.py] the maximum and the scaling are not-a-number,
    and so is every scaled sample, while the loop of [3_Phase_waveforms.py]
    keeps its [0.0] and the scaling falls back to [1.0]. *)
Theorem scripts_agree_unless_nan peak (w : Waves) :
  ((forall x, In x (w PhaseA) -> is_nan x = false) ->
   Plain.max_modulation w = Thi.max_modulation w
   /\ Plain.scaling peak w = Thi.scaling peak w)
  /\ ((forall ph, In nan (w ph)) ->
      Thi.max_modulation w = Ok nan
      /\ Thi.scaling peak w = Ok nan
      /\ (forall ph x, In x (np_scale nan (w ph)) -> x = nan)
      /\ Plain.max_modulation w = Ok zero
      /\ Plain.scaling peak w = Ok one).
Proof.
  split.
  - intros Hw.
    assert (E : Plain.max_modulation w = Thi.max_modulation w).
    { unfold Plain.max_modulation, Thi.max_modulation, phases.
      cbn [Plain.max_modulation_loop].
      destruct (np_max (np_abs (w PhaseA))) as [a |] eqn:Ea; [| reflexivity].
      cbn [bind].
      destruct (np_max (np_abs (w PhaseB))) as [b |] eqn:Eb; [| reflexivity].
      cbn [bind].
      destruct (np_max (np_abs (w PhaseC))) as [c |] eqn:Ec; [| reflexivity].
      cbn [bind].
      rewrite (py_max_zero a); [reflexivity |].
      apply (abs_max_nonneg (w PhaseA)); [exact Hw | exact Ea]. }
    split; [exact E |]. unfold Plain.scaling, Thi.scaling. rewrite E.
    reflexivity.
  - intros Hw.
    assert (E1 : Thi.max_modulation w = Ok nan).
    { unfold Thi.max_modulation. rewrite !np_max_abs_nan by apply Hw.
      reflexivity. }
    assert (E2 : Plain.max_modulation w = Ok zero).
    { unfold Plain.max_modulation, phases. cbn [Plain.max_modulation_loop].
      rewrite !np_max_abs_nan by apply Hw. reflexivity. }
    split; [exact E1 |].
    split; [unfold Thi.scaling; rewrite E1; cbn [bind]; unfold scaling_of;
            cbn [truthy nan]; rewrite div_nan; reflexivity |].
    split.
    + intros ph x Hx. unfold np_scale in Hx.
      apply in_map_iff in Hx as (y & <- & _). reflexivity.
    + split; [exact E2 |]. unfold Plain.scaling. rewrite E2. reflexivity.
Qed.

Lemma scripts_agree_unless_nan_witness :
  Plain.scaling f_225 one_sample_waves = Thi.scaling f_225 one_sample_waves
  /\ Thi.scaling f_225 nan_waves = Ok nan
  /\ Plain.scaling f_225 nan_waves = Ok one.
Proof.
  split.
  - apply (proj1 (scripts_agree_unless_nan f_225 one_sample_waves)).
    intros x [<- | []]. reflexivity.
  - destruct (proj2 (scripts_agree_unless_nan f_225 nan_waves))
      as (_ & H1 & _ & _ & H2); [intros ph; left; reflexivity |].
    split; assumption.
Defined.

End Binary64Facts.

(** ** The reader *)

Module CsvFacts.

Import Csv.
Local Open Scope string_scope.

(** *** One character *)

Lemma add_char_some r c :
  (field_len r < field_limit)%N -> exists r', parse_add_char r c = Some r'.
Proof.
  intros H. unfold parse_add_char.
  destruct (N.leb_spec field_limit (field_len r)); [lia | eauto].
Qed.

Lemma add_char_inv r c r' :
  parse_add_char r c = Some r' ->
  state r' = state r /\ fields r' = fields r
  /\ field r' = Py.snoc (field r) c
  /\ field_len r' = (field_len r + 1)%N
  /\ (field_len r < field_limit)%N.
Proof.
  unfold parse_add_char.
  destruct (N.leb_spec field_limit (field_len r)); [discriminate |].
  intros [= <-]. simpl. repeat split. assumption.
Qed.

Lemma add_char_then_inv r c s r' :
  add_char_then r c s = Some r' ->
  state r' = s /\ field_len r' = (field_len r + 1)%N.
Proof.
  unfold add_char_then. destruct (parse_add_char r c) as [r1 |] eqn:E;
    [| discriminate].
  intros [= <-]. apply add_char_inv in E as (_ & _ & _ & E & _).
  simpl. split; [reflexivity | exact E].
Qed.

(** The end of a line never makes the parser raise. *)
Lemma process_eol_some d r : exists r', parse_process_char d r EOL = Some r'.
Proof.
  unfold parse_process_char, start_field. destruct (state r); eauto.
Qed.

(** A character makes the parser raise in two cases only: it is not a
    terminator and follows a carriage return, or the field is full. *)
Lemma process_char_some d r c :
  state r <> EAT_CRNL \/ is_newline c = true ->
  (field_len r < field_limit)%N ->
  exists r', parse_process_char d r (Char c) = Some r'.
Proof.
  intros H Hlen.
  destruct (add_char_some r c Hlen) as (r1 & E1).
  destruct (add_char_some (set_state r START_FIELD) c Hlen) as (r2 & E2).
  unfold parse_process_char, start_field, add_char_then.
  rewrite E1, E2.
  destruct (state r) eqn:E;
    repeat match goal with
           | |- context [if ?b then _ else _] => destruct b eqn:?
           end; simpl; eauto.
  destruct H as [H | H]; [contradiction | congruence].
Qed.

(** A step adds at most one character to the field. *)
Lemma process_char_len d r i r' :
  parse_process_char d r i = Some r' ->
  (field_len r' <= field_len r + 1)%N.
Proof.
  unfold parse_process_char, start_field. intros H.
  destruct (state r); destruct i as [c |];
    repeat match type of H with
           | context [if ?b then _ else _] => destruct b eqn:?
           end;
    first [ discriminate H
          | apply add_char_then_inv in H as (_ & ->); simpl; lia
          | apply add_char_inv in H as (_ & _ & _ & -> & _); lia
          | injection H as <-; simpl; lia ].
Qed.

Lemma process_char_state d r c r' :
  parse_process_char d r (Char c) = Some r' ->
  is_newline c = false ->
  state r <> EAT_CRNL ->
  state r' <> EAT_CRNL.
Proof.
  intros H Hc Hs. unfold parse_process_char, start_field in H. rewrite ?Hc in H.
  destruct (state r) eqn:E; simpl in H; rewrite ?Hc in H;
    repeat match type of H with
           | context [if ?b then _ else _] => destruct b eqn:?
           end;
    first [ discriminate H
          | apply add_char_then_inv in H as (-> & _); discriminate
          | apply add_char_inv in H as (-> & _); rewrite E; discriminate
          | injection H as <-; simpl; rewrite ?E; discriminate ].
Qed.

Lemma process_eol_state d r r' :
  parse_process_char d r EOL = Some r' -> state r' <> EAT_CRNL.
Proof.
  unfold parse_process_char, start_field. destruct (state r) eqn:E; simpl;
    intros [= <-]; simpl; rewrite ?E; discriminate.
Qed.

Lemma process_eol_len d r r' :
  parse_process_char d r EOL = Some r' -> (field_len r' <= field_len r)%N.
Proof.
  unfold parse_process_char, start_field. destruct (state r); simpl;
    intros [= <-]; simpl; lia.
Qed.

(** *** One line *)

Lemma parse_line_state d s : forall r r',
  parse_line d r s = Some r' -> state r' <> EAT_CRNL.
Proof.
  induction s as [| c s IH]; intros r r' H; simpl in H.
  - eapply process_eol_state. exact H.
  - destruct (parse_process_char d r (Char c)) as [r1 |]; [| discriminate].
    eapply IH. exact H.
Qed.

Lemma parse_line_len d s : forall r r',
  parse_line d r s = Some r' -> (field_len r' <= field_len r + Py.len s)%N.
Proof.
  unfold Py.len.
  induction s as [| c s IH]; intros r r' H; simpl in H.
  - apply process_eol_len in H. simpl. lia.
  - destruct (parse_process_char d r (Char c)) as [r1 |] eqn:E; [| discriminate].
    apply process_char_len in E. apply IH in H.
    cbn [String.length]. lia.
Qed.

Lemma parse_line_newlines d s : only_newlines s = true ->
  forall r, (field_len r + Py.len s <= field_limit)%N ->
  exists r', parse_line d r s = Some r'.
Proof.
  unfold Py.len.
  induction s as [| c s IH]; intros Hs r Hlen; simpl.
  - apply process_eol_some.
  - simpl in Hs. apply andb_true_iff in Hs as (Hc & Hs).
    cbn [String.length] in Hlen.
    destruct (process_char_some d r c) as (r1 & E); [right; exact Hc | lia |].
    rewrite E. apply IH; [exact Hs |].
    apply process_char_len in E. lia.
Qed.

(** A line of the file that, added to the field being collected, stays
    within the limit is read without raising. *)
Lemma parse_line_total d s : line_shaped s = true ->
  forall r, state r <> EAT_CRNL ->
  (field_len r + Py.len s <= field_limit)%N ->
  exists r', parse_line d r s = Some r'.
Proof.
  induction s as [| c s IH]; intros Hs r Hr Hlen; simpl.
  - apply process_eol_some.
  - simpl in Hs. unfold Py.len in Hlen. cbn [String.length] in Hlen.
    destruct (process_char_some d r c) as (r1 & E); [left; exact Hr | lia |].
    rewrite E.
    assert (Hlen1 : (field_len r1 + Py.len s <= field_limit)%N)
      by (apply process_char_len in E; unfold Py.len; lia).
    destruct (is_newline c) eqn:Hc.
    + apply parse_line_newlines; assumption.
    + apply IH; [exact Hs | | exact Hlen1].
      eapply process_char_state; [exact E | exact Hc | exact Hr].
Qed.

Lemma rows_go_total d lines :
  Forall (fun l => line_shaped l = true) lines ->
  forall r, state r <> EAT_CRNL ->
  (field_len r + total_len lines <= field_limit)%N ->
  exists rows, rows_go d lines r = Some rows.
Proof.
  induction 1 as [| line lines Hl _ IH]; intros r Hr Hlen; simpl.
  - destruct (_ || _); eauto.
  - cbn [total_len fold_right] in Hlen. fold (total_len lines) in Hlen.
    destruct (parse_line_total d line Hl r Hr) as (r1 & E); [lia |]. rewrite E.
    destruct (state_eqb (state r1) START_RECORD).
    + destruct (IH parse_reset) as (rows & ->); [discriminate | simpl; lia |].
      simpl. eauto.
    + apply IH; [eapply parse_line_state; exact E |].
      apply parse_line_len in E. lia.
Qed.

(** *** The lines of a file *)

Lemma shaped_snoc x c : no_newline x = true -> line_shaped (Py.snoc x c) = true.
Proof.
  induction x as [| a x IH]; simpl; intros H.
  - destruct (is_newline c); reflexivity.
  - apply andb_true_iff in H as (Ha & Hx).
    apply negb_true_iff in Ha. rewrite Ha. apply IH. exact Hx.
Qed.

Lemma shaped_snoc_cr_lf x :
  no_newline x = true -> line_shaped (Py.snoc (Py.snoc x Py.CR) Py.LF) = true.
Proof.
  induction x as [| a x IH]; simpl; intros H.
  - reflexivity.
  - apply andb_true_iff in H as (Ha & Hx).
    apply negb_true_iff in Ha. rewrite Ha. apply IH. exact Hx.
Qed.

Lemma no_newline_snoc x c :
  no_newline x = true -> is_newline c = false -> no_newline (Py.snoc x c) = true.
Proof.
  induction x as [| a x IH]; simpl; intros H Hc.
  - rewrite Hc. reflexivity.
  - apply andb_true_iff in H as (Ha & Hx). rewrite Ha. simpl. apply IH; assumption.
Qed.

Lemma shaped_no_newline x : no_newline x = true -> line_shaped x = true.
Proof.
  induction x as [| a x IH]; simpl; intros H; [reflexivity |].
  apply andb_true_iff in H as (Ha & Hx).
  apply negb_true_iff in Ha. rewrite Ha. apply IH. exact Hx.
Qed.

Lemma pending_shaped after_cr cur : pending after_cr cur -> line_shaped cur = true.
Proof.
  destruct after_cr; simpl.
  - intros (x & Hx & ->). apply shaped_snoc. exact Hx.
  - apply shaped_no_newline.
Qed.

Lemma readlines_go_shaped s : forall after_cr cur,
  pending after_cr cur ->
  Forall (fun l => line_shaped l = true) (Py.readlines_go after_cr cur s).
Proof.
  induction s as [| c s IH]; intros after_cr cur Hp; simpl.
  - destruct (Py.is_empty cur); constructor; [| constructor].
    eapply pending_shaped. exact Hp.
  - destruct (Ascii.eqb c Py.LF) eqn:Hlf.
    + apply Ascii.eqb_eq in Hlf. subst c.
      constructor; [| apply IH; reflexivity].
      destruct after_cr; simpl in Hp.
      * destruct Hp as (x & Hx & ->). apply shaped_snoc_cr_lf. exact Hx.
      * apply shaped_snoc. exact Hp.
    + destruct after_cr.
      * constructor; [eapply pending_shaped; exact Hp |].
        destruct (Ascii.eqb c Py.CR) eqn:Hcr.
        -- apply IH. exists "". split; [reflexivity |].
           apply Ascii.eqb_eq in Hcr. subst c. reflexivity.
        -- apply IH. simpl. unfold is_newline. rewrite Hlf, Hcr. reflexivity.
      * destruct (Ascii.eqb c Py.CR) eqn:Hcr.
        -- apply IH. exists cur. split; [exact Hp |].
           apply Ascii.eqb_eq in Hcr. subst c. reflexivity.
        -- apply IH. simpl. apply no_newline_snoc; [exact Hp |].
           unfold is_newline. rewrite Hlf, Hcr. reflexivity.
Qed.

Lemma length_snoc x c : String.length (Py.snoc x c) = S (String.length x).
Proof.
  unfold Py.snoc. induction x as [| a x IH]; simpl; [| rewrite IH]; reflexivity.
Qed.

Lemma len_snoc x c : Py.len (Py.snoc x c) = (Py.len x + 1)%N.
Proof. unfold Py.len. rewrite length_snoc. lia. Qed.

Lemma snoc_append x c s : Py.snoc x c ++ s = x ++ String c s.
Proof.
  unfold Py.snoc. induction x as [| a x IH]; simpl; [| rewrite IH]; reflexivity.
Qed.

Lemma len_cons c s : Py.len (String c s) = (Py.len s + 1)%N.
Proof. unfold Py.len. cbn [String.length]. lia. Qed.

Lemma total_len_cons l lines : total_len (l :: lines) = (Py.len l + total_len lines)%N.
Proof. reflexivity. Qed.

(** The lines of a file hold its characters, each once. *)
Lemma readlines_go_len s : forall after_cr cur,
  total_len (Py.readlines_go after_cr cur s) = (Py.len cur + Py.len s)%N.
Proof.
  induction s as [| c s IH]; intros after_cr cur.
  - simpl. destruct cur; simpl; unfold Py.len; simpl; lia.
  - cbn [Py.readlines_go]. rewrite (len_cons c s).
    destruct (Ascii.eqb c Py.LF).
    + rewrite total_len_cons, IH, len_snoc. change (Py.len "") with 0%N. lia.
    + destruct after_cr.
      * rewrite total_len_cons.
        destruct (Ascii.eqb c Py.CR); rewrite IH, (len_cons c "");
          change (Py.len "") with 0%N; lia.
      * rewrite IH, len_snoc. lia.
Qed.

(** The reader never raises on a text of at most [field_limit]
    characters. *)
Lemma reader_total d text :
  (Py.len text <= field_limit)%N -> exists rows, reader d text = Some rows.
Proof.
  intros H. unfold reader. apply rows_go_total; [| discriminate |].
  - apply readlines_go_shaped. reflexivity.
  - unfold Py.readlines. rewrite readlines_go_len. simpl. exact H.
Qed.

(** *** A field past the limit *)

Lemma parse_line_full d c : Ascii.eqb c d = false -> is_newline c = false ->
  forall n r, state r = IN_FIELD -> (field_len r <= field_limit)%N ->
  (field_limit < field_len r + N.of_nat n)%N ->
  parse_line d r (Py.repeat_char c n) = None.
Proof.
  intros Hd Hc. induction n as [| n IH]; intros r Hs Hle Hlt.
  - simpl in Hlt. lia.
  - cbn [Py.repeat_char parse_line]. unfold parse_process_char.
    rewrite Hs, Hc, Hd.
    destruct (parse_add_char r c) as [r1 |] eqn:E; [| reflexivity].
    apply add_char_inv in E as (E1 & _ & _ & E2 & E3).
    apply IH; [congruence | lia | lia].
Qed.

(** A line that starts with more than [field_limit] copies of a character
    which is neither the delimiter, nor the quote, nor a terminator makes
    the parser raise. *)
Lemma parse_line_long d c n :
  Ascii.eqb c d = false -> Ascii.eqb c quotechar = false ->
  is_newline c = false -> (field_limit < N.of_nat n)%N ->
  parse_line d parse_reset (Py.repeat_char c n) = None.
Proof.
  intros Hd Hq Hc Hn. destruct n as [| n]; [simpl in Hn; lia |].
  cbn [Py.repeat_char parse_line].
  unfold parse_process_char, parse_reset at 1. cbn [state].
  rewrite Hc. unfold start_field. rewrite Hc, Hq, Hd.
  unfold add_char_then, parse_add_char. cbn [set_state field_len].
  change (field_limit <=? 0)%N with false. cbn [option_map].
  apply parse_line_full; try assumption; cbn [state field_len].
  all: unfold set_state, parse_reset; cbn [state field_len]; try reflexivity.
  all: unfold field_limit in *; lia.
Qed.

Lemma readlines_go_plain c n : is_newline c = false -> forall cur,
  Py.readlines_go false cur (Py.repeat_char c (S n))
  = [cur ++ Py.repeat_char c (S n)].
Proof.
  intros Hc. unfold is_newline in Hc. apply orb_false_iff in Hc as (Hlf & Hcr).
  induction n as [| n IH]; intros cur.
  - simpl. rewrite Hlf. unfold Py.snoc. destruct cur; reflexivity.
  - change (Py.repeat_char c (S (S n))) with (String c (Py.repeat_char c (S n))).
    cbn [Py.readlines_go]. rewrite Hlf, Hcr. rewrite IH.
    rewrite snoc_append. reflexivity.
Qed.

(** The reader raises on a file whose only line is such a field. *)
Lemma reader_long d c n :
  Ascii.eqb c d = false -> Ascii.eqb c quotechar = false ->
  is_newline c = false -> (field_limit < N.of_nat n)%N ->
  reader d (Py.repeat_char c n) = None.
Proof.
  intros Hd Hq Hc Hn. destruct n as [| n]; [simpl in Hn; lia |].
  unfold reader, Py.readlines. rewrite (readlines_go_plain c n Hc).
  cbn [rows_go append]. rewrite parse_line_long by assumption. reflexivity.
Qed.

End CsvFacts.

(** ** The ingestor and the overlay *)

Module BodeFacts.

Import Bode.
Local Open Scope string_scope.

Lemma no_sniffer_sound : sniffer_sound no_sniffer.
Proof. intros sample d H. discriminate H. Qed.

Lemma firstn_two {A : Type} (l : list A) :
  (2 <= List.length l)%nat -> exists a b, firstn 2 l = [a; b].
Proof.
  destruct l as [| a [| b l]]; simpl; intros H; try lia. eauto.
Qed.

(** A sample in which the comma is the only offered delimiter is split on
    the comma, whatever the sniffer does. *)
Lemma sniff_delimiter_comma sniff sample :
  sniffer_sound sniff ->
  map (fun d => Py.contains d sample) delimiters = [true; false; false; false] ->
  sniff_delimiter sniff sample = ","%char.
Proof.
  intros Hs Hc. unfold sniff_delimiter.
  injection Hc as H1 H2 H3 H4.
  destruct (sniff sample) as [d |] eqn:E.
  - apply Hs in E as (Hin & Hd). simpl in Hin.
    destruct Hin as [<- | [<- | [<- | [<- | []]]]]; congruence.
  - simpl. rewrite H1. reflexivity.
Qed.

(** *** Outcomes of the ingestor *)

(** A successful ingestion returns exactly two labels and two columns. *)
Lemma read_ok_shape sniff text labels columns :
  read_labels_and_data sniff text = Ok (labels, columns) ->
  exists x_label y_label x y, labels = [x_label; y_label] /\ columns = [x; y].
Proof.
  intros H. unfold read_labels_and_data in H.
  destruct (non_empty_lines text) as [| labels_line rest]; [discriminate |].
  destruct (Csv.reader _ text) as [rows |]; [| discriminate].
  match type of H with
  | context [parse_labels ?d ?l] =>
      destruct (Nat.ltb_spec (List.length (parse_labels d l)) 2) as [Hl | Hl]
  end; [discriminate |].
  destruct (Nat.ltb_spec (List.length (scan_rows rows false [])) 2)
    as [Hc | Hc]; [discriminate |].
  match type of H with
  | Ok (?ls, ?cs) = _ =>
      assert (E1 : ls = labels) by congruence;
      assert (E2 : cs = columns) by congruence
  end.
  subst labels columns. clear H.
  destruct (firstn_two _ Hc) as (x & y & ->).
  unfold parse_labels in *.
  match goal with
  | |- context [firstn 2 ?l] => destruct (firstn_two l) as (a & b & ->)
  end; [rewrite length_firstn in Hl; lia |].
  exists a, b, x, y. split; reflexivity.
Qed.


(** C4, amended.  The ingestor raises [EmptyInput] when no line has
    anything but white space.  On any other text the reader runs first: it
    raises [csv.Error], which the ingestor lets through, only on a text of
    more than 131072 characters; when it yields its rows the ingestor, in
    this order, raises [MissingLabels] when fewer than two non-empty tokens
    remain of the label line, raises [InsufficientColumns] when fewer than
    two columns were collected from the rows, and in every other case
    returns two labels and two columns. *)
Theorem ingest_outcomes sniff text :
  let r := read_labels_and_data sniff text in
  match non_empty_lines text with
  | [] => r = Raise EmptyInput
  | labels_line :: _ =>
      let delimiter :=
        sniff_delimiter sniff (Py.join_lines (firstn 5 (non_empty_lines text))) in
      match Csv.reader delimiter text with
      | None => r = Raise CsvError /\ (Csv.field_limit < Py.len text)%N
      | Some rows =>
          if (List.length (header_tokens delimiter labels_line) <? 2)%nat
          then r = Raise MissingLabels
          else if (List.length (scan_rows rows false []) <? 2)%nat
          then r = Raise InsufficientColumns
          else exists x_label y_label x y,
                 r = Ok ([x_label; y_label], [x; y])
      end
  end.
Proof.
  unfold read_labels_and_data.
  destruct (non_empty_lines text) as [| labels_line rest] eqn:E; cbv zeta;
    [reflexivity |].
  set (delimiter := sniff_delimiter sniff _).
  destruct (Csv.reader delimiter text) as [rows |] eqn:Hrows.
  - unfold parse_labels.
    destruct (Nat.ltb_spec (List.length (header_tokens delimiter labels_line)) 2)
      as [Hl | Hl].
    + replace (List.length (firstn 2 (header_tokens delimiter labels_line)) <? 2)%nat
        with true; [reflexivity |].
      symmetry. apply Nat.ltb_lt. rewrite length_firstn. lia.
    + replace (List.length (firstn 2 (header_tokens delimiter labels_line)) <? 2)%nat
        with false by (symmetry; apply Nat.ltb_ge; rewrite length_firstn; lia).
      destruct (Nat.ltb_spec (List.length (scan_rows rows false [])) 2)
        as [Hc | Hc]; [reflexivity |].
      destruct (firstn_two _ Hl) as (a & b & ->).
      destruct (firstn_two _ Hc) as (x & y & ->).
      exists a, b, x, y. reflexivity.
  - split; [reflexivity |].
    destruct (N.lt_ge_cases Csv.field_limit (Py.len text)) as [H | H];
      [exact H |].
    destruct (CsvFacts.reader_total delimiter text H) as (rows & Hr).
    congruence.
Qed.

(** *** A field past the limit of the reader *)

Lemma mem_char_repeat d c n :
  Ascii.eqb d c = false -> Py.mem_char d (Py.repeat_char c n) = false.
Proof.
  intros H. induction n as [| n IH]; simpl; [reflexivity |].
  rewrite H, IH. reflexivity.
Qed.

Lemma mem_char_app d x y :
  Py.mem_char d (x ++ y) = Py.mem_char d x || Py.mem_char d y.
Proof.
  induction x as [| a x IH]; simpl; [reflexivity |].
  rewrite IH, orb_assoc. reflexivity.
Qed.

Lemma splitlines_go_plain c n : Py.is_linebreak c = false -> forall cur,
  Py.splitlines_go false cur (Py.repeat_char c (S n))
  = [cur ++ Py.repeat_char c (S n)].
Proof.
  intros Hc. induction n as [| n IH]; intros cur.
  - simpl. rewrite Hc. unfold Py.snoc. destruct cur; reflexivity.
  - change (Py.repeat_char c (S (S n))) with (String c (Py.repeat_char c (S n))).
    cbn [Py.splitlines_go andb]. rewrite Hc, IH, CsvFacts.snoc_append.
    reflexivity.
Qed.

Lemma strip_repeat c n :
  Py.isspace c = false -> Py.truthy (Py.strip (Py.repeat_char c (S n))) = true.
Proof.
  intros Hc. unfold Py.strip, Py.strip_by. cbn [Py.repeat_char Py.lstrip_by].
  rewrite Hc. cbn [Py.rstrip_by]. rewrite Hc.
  destruct (Py.rstrip_by Py.isspace (Py.repeat_char c n)); reflexivity.
Qed.

Lemma non_empty_lines_long n :
  non_empty_lines (long_field (S n))
  = ["f,mag"; "1,2"; Py.repeat_char "a" (S n)].
Proof.
  unfold non_empty_lines, long_field.
  assert (E : forall tail,
             Py.splitlines ("f,mag" ++ nl ++ "1,2" ++ nl ++ tail)
             = "f,mag" :: "1,2" :: Py.splitlines_go false "" tail)
    by reflexivity.
  rewrite E, splitlines_go_plain by reflexivity.
  cbn [filter append]. rewrite strip_repeat by reflexivity. reflexivity.
Qed.

Lemma reader_long_field n :
  (Csv.field_limit < N.of_nat n)%N -> Csv.reader "," (long_field n) = None.
Proof.
  intros Hn. destruct n as [| n]; [simpl in Hn; lia |].
  unfold Csv.reader, long_field.
  assert (E : forall tail,
             Py.readlines ("f,mag" ++ nl ++ "1,2" ++ nl ++ tail)
             = ("f,mag" ++ nl) :: ("1,2" ++ nl)
               :: Py.readlines_go false "" tail)
    by reflexivity.
  rewrite E, CsvFacts.readlines_go_plain by reflexivity.
  cbn [append].
  assert (H1 : forall rest,
             Csv.rows_go "," (("f,mag" ++ nl) :: ("1,2" ++ nl) :: rest)
                         Csv.parse_reset
             = option_map (cons ["f"; "mag"])
                 (option_map (cons ["1"; "2"])
                    (Csv.rows_go "," rest Csv.parse_reset)))
    by reflexivity.
  rewrite H1. cbn [Csv.rows_go].
  rewrite CsvFacts.parse_line_long by (reflexivity || exact Hn).
  reflexivity.
Qed.

(** The ingestor lets the [csv.Error] of such a file through. *)
Lemma long_field_raises sniff n :
  sniffer_sound sniff ->
  (Csv.field_limit < N.of_nat n)%N ->
  read_labels_and_data sniff (long_field n) = Raise CsvError.
Proof.
  intros Hs Hn. unfold read_labels_and_data.
  destruct n as [| n]; [simpl in Hn; lia |].
  rewrite non_empty_lines_long.
  rewrite (sniff_delimiter_comma sniff _ Hs).
  - rewrite reader_long_field by exact Hn. reflexivity.
  - assert (E : forall tail,
               Py.join_lines (firstn 5 ["f,mag"; "1,2"; tail])
               = ("f,mag" ++ nl ++ "1,2" ++ nl) ++ tail) by reflexivity.
    rewrite E. cbn [map delimiters]. unfold Py.contains.
    rewrite !mem_char_app, !mem_char_repeat by reflexivity. reflexivity.
Qed.

(** C4, as stated, fails: [long_field_text] holds a label line of two
    names and a data row of two numbers, and the ingestor neither raises one
    of its three errors nor returns: the error of the reader, raised on the
    field of 131073 letters, passes through it. *)
Lemma long_field_not_ingested :
  hd_error (non_empty_lines long_field_text) = Some "f,mag"
  /\ header_tokens "," "f,mag" = ["f"; "mag"]
  /\ scan_rows [["f"; "mag"]; ["1"; "2"]] false [] = [[f_1]; [f_2]]
  /\ read_labels_and_data no_sniffer long_field_text = Raise CsvError.
Proof.
  assert (Hn : (Csv.field_limit < N.of_nat (N.to_nat 131073))%N)
    by (unfold Csv.field_limit; lia).
  unfold long_field_text.
  destruct (N.to_nat 131073) as [| n] eqn:E; [simpl in Hn; lia |].
  split; [rewrite non_empty_lines_long; reflexivity |].
  split; [vm_compute; reflexivity |].
  split; [vm_compute; reflexivity |].
  apply long_field_raises; [apply no_sniffer_sound | exact Hn].
Qed.

(** *** The worked example *)

(** C3.  Ingesting the example returns the labels [f] and [mag] and the
    two columns [10.0, 100.0] and [0.5, 0.1]. *)
Theorem ingest_example sniff :
  sniffer_sound sniff ->
  read_labels_and_data sniff example_text
  = Ok (["f"; "mag"], [[f_10; f_100]; [f_0_5; f_0_1]]).
Proof.
  intros Hs. unfold read_labels_and_data.
  replace (non_empty_lines example_text) with ["f,mag"; "10,0.5"; "100,0.1"]
    by (vm_compute; reflexivity).
  rewrite (sniff_delimiter_comma sniff _ Hs) by (vm_compute; reflexivity).
  vm_compute. reflexivity.
Qed.

Lemma ingest_example_witness :
  read_labels_and_data no_sniffer example_text
  = Ok (["f"; "mag"], [[f_10; f_100]; [f_0_5; f_0_1]]).
Proof. exact (ingest_example no_sniffer no_sniffer_sound). Defined.


(** *** Rows *)

Lemma coerce_cells_all cells : forall numeric,
  coerce_cells cells numeric
  = match coerce_all cells with
    | Some vs => (numeric ++ vs)%list
    | None => []
    end.
Proof.
  induction cells as [| cell cells IH]; intros numeric; simpl.
  - rewrite app_nil_r. reflexivity.
  - destruct (coerce_cell cell) as [v |]; [| reflexivity].
    rewrite IH. destruct (coerce_all cells) as [vs |]; [| reflexivity].
    rewrite <- app_assoc. reflexivity.
Qed.




Lemma scan_rows_app before : forall rows skipped_label columns,
  scan_rows (before ++ rows) skipped_label columns
  = scan_rows rows (label_skipped before skipped_label)
              (scan_rows before skipped_label columns).
Proof.
  unfold label_skipped.
  induction before as [| row before IH]; intros rows skipped_label columns.
  - simpl. rewrite orb_false_r. reflexivity.
  - change ((row :: before) ++ rows)%list with (row :: (before ++ rows))%list.
    cbn [scan_rows existsb].
    destruct (row_is_empty row); cbn [negb orb].
    + apply IH.
    + rewrite orb_true_r. destruct skipped_label; cbn [negb].
      * destruct (Py.startswith hash (first_cell row));
          [rewrite IH; reflexivity |].
        destruct (coerce_row row); rewrite IH; reflexivity.
      * rewrite IH. reflexivity.
Qed.



(** *** Rows of unequal width *)

(** C9.  The ingestor accepts [ragged_text] and returns an x column of two
    values and a y column of one: the row of one cell is appended to the
    first column only. *)
Theorem short_row_unequal_columns sniff :
  sniffer_sound sniff ->
  read_labels_and_data sniff ragged_text
  = Ok (["f"; "mag"], [[f_1; f_3]; [f_2]]).
Proof.
  intros Hs. unfold read_labels_and_data.
  replace (non_empty_lines ragged_text) with ["f,mag"; "1,2"; "3"]
    by (vm_compute; reflexivity).
  rewrite (sniff_delimiter_comma sniff _ Hs) by (vm_compute; reflexivity).
  vm_compute. reflexivity.
Qed.

Lemma short_row_unequal_columns_witness :
  exists x y,
    read_labels_and_data no_sniffer ragged_text = Ok (["f"; "mag"], [x; y])
    /\ List.length x <> List.length y.
Proof.
  exists [f_1; f_3], [f_2].
  split; [exact (short_row_unequal_columns no_sniffer no_sniffer_sound) |].
  simpl. discriminate.
Defined.

(** *** The label line and the comment rows *)

(** A label line that starts with the comment marker gives the labels and
    is passed over as the label row; the comment row after it is skipped. *)
Lemma hash_header_example sniff :
  sniffer_sound sniff ->
  read_labels_and_data sniff hash_text
  = Ok ([String hash "f"; "mag"], [[f_1; f_5]; [f_2; f_6]]).
Proof.
  intros Hs. unfold read_labels_and_data.
  replace (non_empty_lines hash_text)
    with [String hash "f,mag"; "1,2"; String hash "3,4"; "5,6"]
    by (vm_compute; reflexivity).
  rewrite (sniff_delimiter_comma sniff _ Hs) by (vm_compute; reflexivity).
  vm_compute. reflexivity.
Qed.

(** C10.  On [blank_header_text] the first non-empty line gives the two
    labels, yet it is not the row passed over as the label row: its cells
    are blank once the reader has unquoted them, so the scan skips it as an
    empty row and passes over the data row [1,2] in its place.  That row is
    lost: the columns hold the values of the rows [3,4] and [5,6] only,
    whereas the same three rows under a label line of two names give three
    values each. *)
Theorem blank_header_loses_row sniff :
  sniffer_sound sniff ->
  hd_error (non_empty_lines blank_header_text) = Some blank_header_line
  /\ Csv.reader "," blank_header_text
     = Some [[String nbsp ""; String nbsp ""]; ["1"; "2"]; ["3"; "4"];
             ["5"; "6"]]
  /\ row_is_empty [String nbsp ""; String nbsp ""] = true
  /\ read_labels_and_data sniff blank_header_text
     = Ok ([String nbsp ""; String nbsp ""], [[f_3; f_5]; [f_4; f_6]])
  /\ read_labels_and_data sniff named_header_text
     = Ok (["f"; "mag"], [[f_1; f_3; f_5]; [f_2; f_4; f_6]]).
Proof.
  intros Hs.
  split; [vm_compute; reflexivity |].
  split; [vm_compute; reflexivity |].
  split; [vm_compute; reflexivity |].
  split.
  - unfold read_labels_and_data.
    replace (non_empty_lines blank_header_text)
      with [blank_header_line; "1,2"; "3,4"; "5,6"]
      by (vm_compute; reflexivity).
    rewrite (sniff_delimiter_comma sniff _ Hs) by (vm_compute; reflexivity).
    vm_compute. reflexivity.
  - unfold read_labels_and_data.
    replace (non_empty_lines named_header_text)
      with ["f,mag"; "1,2"; "3,4"; "5,6"]
      by (vm_compute; reflexivity).
    rewrite (sniff_delimiter_comma sniff _ Hs) by (vm_compute; reflexivity).
    vm_compute. reflexivity.
Qed.

Lemma blank_header_loses_row_witness :
  read_labels_and_data no_sniffer blank_header_text
  = Ok ([String nbsp ""; String nbsp ""], [[f_3; f_5]; [f_4; f_6]]).
Proof.
  exact (proj1 (proj2 (proj2 (proj2
           (blank_header_loses_row no_sniffer no_sniffer_sound))))).
Defined.


(** *** The overlay *)

Section Overlay.

Variable sniff : string -> option ascii.

Lemma overlay_step_raise st fp e :
  read_labels_and_data sniff (content fp) = Raise e ->
  overlay_step sniff st fp = skip st fp (ParseFailed e).
Proof. intros H. unfold overlay_step. rewrite H. reflexivity. Qed.

Lemma overlay_step_ok st fp labels columns :
  read_labels_and_data sniff (content fp) = Ok (labels, columns) ->
  exists x_label y_label x y,
    labels = [x_label; y_label] /\ columns = [x; y] /\
    overlay_step sniff st fp =
    {| traces := traces st ++ [mkTrace (stem fp) x y];
       x_title := match x_title st with
                  | None => Some x_label
                  | Some old => Some old
                  end;
       y_title := match x_title st with
                  | None => Some y_label
                  | Some _ => y_title st
                  end;
       added := S (added st);
       skipped := skipped st |}.
Proof.
  intros H. destruct (read_ok_shape _ _ _ _ H) as (a & b & x & y & -> & ->).
  exists a, b, x, y. split; [reflexivity |]. split; [reflexivity |].
  unfold overlay_step. rewrite H. simpl.
  destruct (x_title st); reflexivity.
Qed.

(** The loop from any state: traces and reports are appended in the order
    of the files, and the titles change only while no title is set. *)
Lemma overlay_loop files : forall st,
  let st' := fold_left (overlay_step sniff) files st in
  traces st' = (traces st ++ flat_map (trace_of sniff) files)%list
  /\ skipped st' = (skipped st ++ flat_map (report_of sniff) files)%list
  /\ added st' = (added st + List.length (filter (parses sniff) files))%nat
  /\ (x_title st', y_title st')
     = match x_title st, find (parses sniff) files with
       | None, Some fp => (nth_error (labels_of sniff fp) 0,
                           nth_error (labels_of sniff fp) 1)
       | _, _ => (x_title st, y_title st)
       end.
Proof.
  induction files as [| fp files IH]; intros st; cbv zeta.
  - simpl. rewrite !app_nil_r, Nat.add_0_r.
    repeat split. destruct (x_title st); reflexivity.
  - cbn [fold_left flat_map filter find].
    specialize (IH (overlay_step sniff st fp)). cbv zeta in IH.
    destruct IH as (Ht & Hs & Ha & Hx).
    rewrite Ht, Hs, Ha, Hx. clear Ht Hs Ha Hx.
    destruct (read_labels_and_data sniff (content fp)) as [[labels columns] | e]
      eqn:E.
    + destruct (overlay_step_ok st fp labels columns E)
        as (a & b & x & y & -> & -> & ->).
      assert (Hp : parses sniff fp = true) by (unfold parses; rewrite E; reflexivity).
      assert (Htr : trace_of sniff fp = [mkTrace (stem fp) x y])
        by (unfold trace_of; rewrite E; reflexivity).
      assert (Hrp : report_of sniff fp = [])
        by (unfold report_of; rewrite E; reflexivity).
      assert (Hlb : labels_of sniff fp = [a; b])
        by (unfold labels_of; rewrite E; reflexivity).
      rewrite Hp, Htr, Hrp, Hlb.
      cbn [traces skipped added x_title y_title List.length app nth_error].
      rewrite <- app_assoc. cbn [app].
      repeat split; [lia |].
      destruct (x_title st); reflexivity.
    + rewrite (overlay_step_raise st fp e E). unfold skip.
      assert (Hp : parses sniff fp = false) by (unfold parses; rewrite E; reflexivity).
      assert (Htr : trace_of sniff fp = [])
        by (unfold trace_of; rewrite E; reflexivity).
      assert (Hrp : report_of sniff fp = [(name fp, ParseFailed e)])
        by (unfold report_of; rewrite E; reflexivity).
      rewrite Hp, Htr, Hrp.
      cbn [traces skipped added x_title y_title app].
      rewrite <- app_assoc. cbn [app].
      repeat split.
Qed.

Lemma filter_none {A : Type} (f : A -> bool) (l : list A) :
  List.length (filter f l) = 0%nat <-> forall a, In a l -> f a = false.
Proof.
  induction l as [| a l IH]; simpl.
  - split; [intros _ b [] | reflexivity].
  - destruct (f a) eqn:E; simpl.
    + split; [discriminate |]. intros H. specialize (H a (or_introl eq_refl)).
      congruence.
    + rewrite IH. split.
      * intros H b [<- | Hb]; [exact E | apply H; exact Hb].
      * intros H b Hb. apply H. right. exact Hb.
Qed.

(** C6.  The overlay tries every file on its own.  It raises
    [NoUsableInput] exactly when no file parses.  Otherwise the traces are
    those of the files that parse, in the order of the files; every file
    on which the ingestor raises is reported, in that order too, and does
    not stop the loop; and the axis titles are the two labels of the first
    file that parses. *)
Theorem overlay_collects files :
  (plot_overlay sniff files = Raise NoUsableInput
   <-> forall fp, In fp files -> parses sniff fp = false)
  /\ (forall st,
        plot_overlay sniff files = Ok st ->
        traces st = flat_map (trace_of sniff) files
        /\ skipped st = flat_map (report_of sniff) files
        /\ added st = List.length (filter (parses sniff) files)
        /\ exists first x_label y_label,
             find (parses sniff) files = Some first
             /\ labels_of sniff first = [x_label; y_label]
             /\ x_title st = Some x_label
             /\ y_title st = Some y_label).
Proof.
  pose proof (overlay_loop files overlay_init) as H. cbv zeta in H.
  destruct H as (Ht & Hs & Ha & Hx). simpl in Ht, Hs, Ha, Hx.
  unfold plot_overlay. split.
  - rewrite <- filter_none, <- Ha.
    destruct (Nat.eqb_spec (added (fold_left (overlay_step sniff) files
                                             overlay_init)) 0) as [E | E].
    + split; [intros _; exact E | reflexivity].
    + split; [discriminate | intros E'; contradiction].
  - intros st Hst.
    destruct (Nat.eqb_spec (added (fold_left (overlay_step sniff) files
                                             overlay_init)) 0) as [E | E];
      [discriminate |].
    injection Hst as <-.
    split; [exact Ht |]. split; [exact Hs |]. split; [exact Ha |].
    destruct (find (parses sniff) files) as [first |] eqn:Hf.
    + exists first.
      apply find_some in Hf as (_ & Hp). unfold parses in Hp.
      unfold labels_of in *.
      destruct (read_labels_and_data sniff (content first))
        as [[labels columns] |] eqn:E1; [| discriminate].
      destruct (read_ok_shape _ _ _ _ E1) as (a & b & x & y & -> & ->).
      exists a, b. simpl in Hx. injection Hx as Hx1 Hx2.
      repeat split; assumption.
    + exfalso. apply E. rewrite Ha. apply filter_none.
      intros fp Hin. apply (find_none _ _ Hf fp Hin).
Qed.

End Overlay.

Lemma overlay_collects_witness :
  exists st,
    plot_overlay no_sniffer candidates = Ok st
    /\ traces st = [mkTrace "a" [f_10; f_100] [f_0_5; f_0_1];
                    mkTrace "c" [f_1; f_5] [f_2; f_6]]
    /\ skipped st = [("b.csv", ParseFailed EmptyInput)]
    /\ x_title st = Some "f" /\ y_title st = Some "mag".
Proof.
  destruct (plot_overlay no_sniffer candidates) as [st | e] eqn:E;
    [| vm_compute in E; discriminate E].
  exists st. split; [reflexivity |].
  destruct (overlay_collects no_sniffer candidates) as (_ & H).
  destruct (H st E) as (Ht & Hs & _ & first & a & b & Hf & Hl & Hx & Hy).
  split; [rewrite Ht; vm_compute; reflexivity |].
  split; [rewrite Hs; vm_compute; reflexivity |].
  vm_compute in Hf. injection Hf as <-.
  vm_compute in Hl. injection Hl as <- <-.
  split; assumption.
Defined.

End BodeFacts.

(** ** Sines of the three phases *)

Module Trig.

Import Waveforms.
Local Open Scope R_scope.

Lemma sqrt3_sqr : sqrt 3 * sqrt 3 = 3.
Proof. apply sqrt_sqrt. lra. Qed.

Lemma sqrt3_bounds : 1 < sqrt 3 < 2.
Proof.
  pose proof sqrt3_sqr. assert (0 < sqrt 3) by (apply sqrt_lt_R0; lra).
  split; nra.
Qed.

Lemma angle_B : phase_angles PhaseB = - (2 * (PI / 3)).
Proof. simpl. lra. Qed.

Lemma angle_C : phase_angles PhaseC = 2 * (PI / 3).
Proof. simpl. lra. Qed.


Lemma cos_phase y ph :
  cos (y + phase_angles ph)
  = match ph with
    | PhaseA => cos y
    | PhaseB => - (1 / 2) * cos y + sqrt 3 / 2 * sin y
    | PhaseC => - (1 / 2) * cos y - sqrt 3 / 2 * sin y
    end.
Proof.
  destruct ph.
  - simpl. f_equal. lra.
  - rewrite angle_B, cos_plus, sin_neg, cos_neg, sin_2PI3, cos_2PI3. lra.
  - rewrite angle_C, cos_plus, sin_2PI3, cos_2PI3. lra.
Qed.






(** A difference of two phases 120 degrees apart. *)
Lemma line_difference y :
  sin y - sin (y - 2 * (PI / 3)) = sqrt 3 * sin (y + PI / 6).
Proof.
  rewrite sin_minus, sin_plus, sin_2PI3, cos_2PI3, sin_PI6, cos_PI6.
  replace (sqrt 3 * (sin y * (sqrt 3 / 2) + cos y * (1 / 2)))
    with (sqrt 3 * sqrt 3 / 2 * sin y + sqrt 3 / 2 * cos y) by field.
  rewrite sqrt3_sqr. field.
Qed.

End Trig.

(** ** More on the waveform scripts *)

Module WaveformExtras.

Import Waveforms WaveformFacts Trig.
Local Open Scope R_scope.

(** *** Helpers *)

Lemma t_inv p ts :
  t p = Ok ts ->
  freq_hz p <> 0 /\ (0 <= N p)%Z /\
  ts = map (fun i => INR i * ((IZR (cycles p) * (1 / freq_hz p) - 0)
                              / IZR (N p)) + 0)
           (seq 0 (Z.to_nat (N p))).
Proof.
  intros Ht.
  destruct (Req_dec_T (freq_hz p) 0) as [Hf | Hf].
  { unfold t in Ht. rewrite T_zero in Ht by exact Hf. discriminate. }
  destruct (Z.lt_ge_cases (N p) 0) as [HN | HN].
  { unfold t in Ht. rewrite T_nonzero in Ht by exact Hf. simpl in Ht.
    unfold linspace in Ht. destruct (Z.ltb_spec (N p) 0); [discriminate | lia]. }
  rewrite (t_ok p Hf HN) in Ht. injection Ht as <-. auto.
Qed.

Lemma zip_with_map {A : Type} (g : R -> R -> R) (a b : A -> R) l :
  zip_with g (map a l) (map b l) = map (fun x => g (a x) (b x)) l.
Proof.
  induction l as [| x l IH]; simpl; [reflexivity | rewrite IH; reflexivity].
Qed.

Lemma combined_map p ts ph :
  Thi.combined_waveforms p ts ph
  = map (fun x => sin (omega p * x + phase_angles ph)
                  + third_harmonic_ratio p * sin (3 * omega p * x)) ts.
Proof.
  unfold Thi.combined_waveforms, np_add, fundamental, third_harmonic.
  apply zip_with_map.
Qed.

Lemma N_factors p : (0 < N p)%Z ->
  IZR (cycles p) <> 0 /\ IZR (samples_per_cycle p) <> 0.
Proof.
  unfold N. intros H.
  split; apply not_0_IZR; intros E; rewrite E in H; lia.
Qed.

(** The angle of a sample does not depend on the frequency. *)
Lemma omega_sample p i :
  freq_hz p <> 0 -> (0 < N p)%Z ->
  omega p * (INR i * ((IZR (cycles p) * (1 / freq_hz p) - 0) / IZR (N p)) + 0)
  = sample_angle p i.
Proof.
  intros Hf HN. destruct (N_factors p HN) as (Hc & Hs).
  unfold omega, sample_angle, N. rewrite mult_IZR. field. auto.
Qed.

Lemma combined_samples p ts ph :
  t p = Ok ts -> (0 < N p)%Z ->
  Thi.combined_waveforms p ts ph
  = map (reference p ph) (seq 0 (Z.to_nat (N p))).
Proof.
  intros Ht HN. destruct (t_inv p ts Ht) as (Hf & _ & ->).
  rewrite combined_map, map_map. apply map_ext. intros i.
  unfold reference.
  replace (3 * omega p * (INR i * ((IZR (cycles p) * (1 / freq_hz p) - 0)
                                    / IZR (N p)) + 0))
    with (3 * (omega p * (INR i * ((IZR (cycles p) * (1 / freq_hz p) - 0)
                                    / IZR (N p)) + 0))) by ring.
  rewrite !omega_sample by assumption. reflexivity.
Qed.

Lemma np_max_ok a : a <> [] -> exists m, np_max (np_abs a) = Ok m.
Proof. destruct a; [contradiction | simpl; eauto]. Qed.

Lemma np_max_raise a e : np_max (np_abs a) = Raise e -> a = [].
Proof. destruct a; [reflexivity | discriminate]. Qed.

Lemma combined_length p ts ph :
  List.length (Thi.combined_waveforms p ts ph) = List.length ts.
Proof. rewrite combined_map. apply length_map. Qed.

Lemma max_modulation_ok p ts :
  ts <> [] -> exists m, Thi.max_modulation (Thi.combined_waveforms p ts) = Ok m.
Proof.
  intros Hts. unfold Thi.max_modulation.
  assert (Hne : forall ph, Thi.combined_waveforms p ts ph <> []).
  { intros ph E. apply (f_equal (@List.length R)) in E.
    rewrite combined_length in E. destruct ts; [contradiction | discriminate]. }
  destruct (np_max_ok _ (Hne PhaseA)) as (a & ->).
  destruct (np_max_ok _ (Hne PhaseB)) as (b & ->).
  destruct (np_max_ok _ (Hne PhaseC)) as (c & ->).
  simpl. eauto.
Qed.

Lemma max_modulation_empty p :
  Thi.max_modulation (Thi.combined_waveforms p []) = Raise ValueError.
Proof. reflexivity. Qed.

(** What a successful run rests on. *)
Lemma run_facts p out :
  Thi.run p = Ok out ->
  freq_hz p <> 0 /\ (0 < N p)%Z /\
  exists m,
    t p = Ok (time out) /\
    Thi.max_modulation (Thi.combined_waveforms p (time out)) = Ok m /\
    scaling out = scaling_of (phase_leg_peak_v p) m /\
    phase_waveforms out
    = (fun ph => np_scale (scaling out) (Thi.combined_waveforms p (time out) ph)) /\
    voltages out = line_to_line (phase_waveforms out).
Proof.
  intros H. apply run_inv in H as (ts & m & Ht & Hm & <- & Hs & Hw & Hv).
  destruct (t_inv p _ Ht) as (Hf & HN & Hts).
  split; [exact Hf |]. split.
  - destruct (Z.eq_dec (N p) 0) as [E | E]; [| lia].
    rewrite E in Hts. simpl in Hts. rewrite Hts in Hm. discriminate Hm.
  - exists m. repeat split; assumption.
Qed.

(** *** Outcomes of a run *)

(** X1.  Each of the two scripts raises a division by zero for a zero
    frequency and a [ValueError] when [N = cycles * samples_per_cycle] is
    zero or negative (for zero: the maximum of an array without samples);
    with a non-zero frequency and a positive [N] each of them completes. *)
Theorem run_outcomes p :
  (freq_hz p = 0 ->
   Thi.run p = Raise ZeroDivisionError /\ Plain.run p = Raise ZeroDivisionError)
  /\ (freq_hz p <> 0 -> (N p <= 0)%Z ->
      Thi.run p = Raise ValueError /\ Plain.run p = Raise ValueError)
  /\ (freq_hz p <> 0 -> (0 < N p)%Z ->
      (exists out, Thi.run p = Ok out) /\ (exists out, Plain.run p = Ok out)).
Proof.
  rewrite run_eq.
  assert (Hz : freq_hz p = 0 -> Thi.run p = Raise ZeroDivisionError).
  { intros Hf. unfold Thi.run, t. rewrite T_zero by exact Hf. reflexivity. }
  assert (Hv : freq_hz p <> 0 -> (N p <= 0)%Z -> Thi.run p = Raise ValueError).
  { intros Hf HN. unfold Thi.run.
    destruct (Z.eq_dec (N p) 0) as [E | E].
    + rewrite (t_ok p Hf) by lia. rewrite E. reflexivity.
    + unfold t. rewrite T_nonzero by exact Hf. simpl. unfold linspace.
      destruct (Z.ltb_spec (N p) 0); [reflexivity | lia]. }
  assert (Hok : freq_hz p <> 0 -> (0 < N p)%Z -> exists out, Thi.run p = Ok out).
  { intros Hf HN.
    pose proof (t_ok p Hf ltac:(lia)) as Ht.
    destruct (max_modulation_ok p
                (map (fun i => INR i * ((IZR (cycles p) * (1 / freq_hz p) - 0)
                                        / IZR (N p)) + 0)
                     (seq 0 (Z.to_nat (N p))))) as (m & Hm).
    { destruct (Z.to_nat (N p)) eqn:E; [lia | discriminate]. }
    eexists. exact (run_ok p _ m Ht Hm). }
  split; [| split].
  - intros Hf. split; apply Hz; exact Hf.
  - intros Hf HN. split; apply Hv; assumption.
  - intros Hf HN. split; apply Hok; assumption.
Qed.

Lemma run_outcomes_witness :
  Plain.run reversed_no_cycle = Raise ValueError
  /\ exists out, Thi.run one_sample = Ok out.
Proof.
  destruct (run_outcomes reversed_no_cycle) as (_ & Hv & _).
  destruct (run_outcomes one_sample) as (_ & _ & Hok).
  split.
  - apply Hv; [simpl; lra | unfold N; simpl; lia].
  - apply Hok; [simpl; lra | unfold N; simpl; lia].
Defined.

(** X2.  In a completed run the time base has [N] samples, each of the
    three phase waveforms has as many, and there are three line-to-line
    series of that length. *)
Theorem run_shapes p out :
  Thi.run p = Ok out ->
  List.length (time out) = Z.to_nat (N p)
  /\ (forall ph, List.length (phase_waveforms out ph) = List.length (time out))
  /\ List.length (voltages out) = 3%nat
  /\ (forall v, In v (voltages out) -> List.length v = List.length (time out)).
Proof.
  intros H. destruct (run_facts p out H) as (Hf & HN & m & Ht & _ & _ & Hw & Hv).
  assert (Hlen : forall ph,
             List.length (phase_waveforms out ph) = List.length (time out)).
  { intros ph. rewrite Hw. unfold np_scale.
    rewrite length_map. apply combined_length. }
  split.
  { destruct (t_inv p _ Ht) as (_ & _ & E). rewrite E at 1.
    rewrite length_map, length_seq. reflexivity. }
  split; [exact Hlen |]. rewrite Hv. split; [reflexivity |].
  intros v Hin. unfold line_to_line, line_to_line_pairs in Hin. simpl in Hin.
  assert (Hsub : forall a b,
             List.length (np_sub (phase_waveforms out a) (phase_waveforms out b))
             = List.length (time out)).
  { intros a b. rewrite Hw. unfold np_sub, np_scale. rewrite !combined_map.
    rewrite !map_map, zip_with_map. apply length_map. }
  destruct Hin as [<- | [<- | [<- | []]]]; apply Hsub.
Qed.

Lemma run_shapes_witness :
  exists out, Thi.run one_sample = Ok out
              /\ List.length (phase_waveforms out PhaseB) = 1%nat.
Proof.
  destruct one_sample_max_modulation as (m & Hm & _).
  pose proof (run_ok one_sample [0] m t_one_sample Hm) as Hrun.
  eexists. split; [exact Hrun |].
  destruct (run_shapes one_sample _ Hrun) as (_ & Hlen & _).
  rewrite Hlen. reflexivity.
Defined.


(** *** The largest reference *)

Lemma sample_angle_0 p : sample_angle p 0 = 0.
Proof. unfold sample_angle. simpl. unfold Rdiv. ring. Qed.


Lemma reference_bound p ph i :
  Rabs (reference p ph i) <= 1 + Rabs (third_harmonic_ratio p).
Proof.
  unfold reference.
  eapply Rle_trans; [apply Rabs_triang |].
  rewrite Rabs_mult.
  pose proof (SIN_bound (sample_angle p i + phase_angles ph)) as H1.
  pose proof (SIN_bound (3 * sample_angle p i)) as H2.
  assert (Rabs (sin (sample_angle p i + phase_angles ph)) <= 1)
    by (apply Rabs_le; lra).
  assert (Rabs (sin (3 * sample_angle p i)) <= 1) by (apply Rabs_le; lra).
  pose proof (Rabs_pos (third_harmonic_ratio p)). nra.
Qed.

Lemma reference_C_0 p : reference p PhaseC 0%nat = sqrt 3 / 2.
Proof.
  unfold reference. rewrite sample_angle_0, angle_C.
  replace (0 + 2 * (PI / 3)) with (2 * (PI / 3)) by ring.
  replace (3 * 0) with 0 by ring.
  rewrite sin_2PI3, sin_0. ring.
Qed.

Lemma max_modulation_le (w : Waves) m B :
  Thi.max_modulation w = Ok m ->
  (forall ph x, In x (w ph) -> Rabs x <= B) -> m <= B.
Proof.
  intros Hm HB. destruct (max_modulation_attained w m Hm) as (ph & x & Hin & <-).
  exact (HB ph x Hin).
Qed.

Lemma modulation_range p ts m :
  t p = Ok ts -> (0 < N p)%Z ->
  Thi.max_modulation (Thi.combined_waveforms p ts) = Ok m ->
  sqrt 3 / 2 <= m <= 1 + Rabs (third_harmonic_ratio p).
Proof.
  intros Ht HN Hm. split.
  - rewrite <- (Rabs_right (sqrt 3 / 2))
      by (pose proof sqrt3_bounds; lra).
    rewrite <- (reference_C_0 p).
    apply (max_modulation_bound _ m PhaseC _ Hm).
    rewrite (combined_samples p ts PhaseC Ht HN).
    apply in_map. apply in_seq. lia.
  - apply (max_modulation_le _ m _ Hm). intros ph x Hin.
    rewrite (combined_samples p ts ph Ht HN) in Hin.
    apply in_map_iff in Hin as (i & <- & _). apply reference_bound.
Qed.

Lemma modulation_range_run p out :
  Thi.run p = Ok out ->
  exists m,
    Thi.max_modulation (Thi.combined_waveforms p (time out)) = Ok m
    /\ sqrt 3 / 2 <= m <= 1 + Rabs (third_harmonic_ratio p)
    /\ scaling out = phase_leg_peak_v p / m.
Proof.
  intros H. destruct (run_facts p out H) as (Hf & HN & m & Ht & Hm & Hs & _).
  exists m. split; [exact Hm |].
  pose proof (modulation_range p _ m Ht HN Hm) as Hr. split; [exact Hr |].
  rewrite Hs. apply scaling_nonzero. pose proof sqrt3_bounds. lra.
Qed.






(** *** Line-to-line voltages *)

(** The negative phase of each pair lags the positive one by a third of a
    turn. *)
Lemma pair_lag y pos neg :
  In (pos, neg) line_to_line_pairs ->
  sin (y + phase_angles neg) = sin (y + phase_angles pos - 2 * (PI / 3)).
Proof.
  intros [[= <- <-] | [[= <- <-] | [[= <- <-] | []]]].
  - f_equal. simpl. lra.
  - rewrite angle_B, angle_C.
    replace (y + 2 * (PI / 3))
      with (y + - (2 * (PI / 3)) - 2 * (PI / 3) + 2 * INR 1 * PI)
      by (simpl; lra).
    apply sin_period.
  - rewrite angle_C. f_equal. simpl. lra.
Qed.

Lemma phase_map p out ph :
  Thi.run p = Ok out ->
  phase_waveforms out ph
  = map (fun x => scaling out
                  * (sin (omega p * x + phase_angles ph)
                     + third_harmonic_ratio p * sin (3 * omega p * x)))
        (time out).
Proof.
  intros H. destruct (run_facts p out H) as (_ & _ & m & _ & _ & _ & Hw & _).
  assert (E := f_equal (fun w : Waves => w ph) Hw). cbv beta in E.
  rewrite E. unfold np_scale. rewrite combined_map, map_map. reflexivity.
Qed.

(** X5.  Each line-to-line series of a completed run is, in exact
    arithmetic, a pure sinusoid: [sqrt 3] times the scaling times the sine
    of the positive phase advanced by [PI / 6]; the injected harmonic does
    not appear. *)
Theorem line_to_line_sinusoid p out :
  Thi.run p = Ok out ->
  voltages out
  = map (fun pn => np_sub (phase_waveforms out (fst pn))
                          (phase_waveforms out (snd pn)))
        line_to_line_pairs
  /\ (forall pos neg,
        In (pos, neg) line_to_line_pairs ->
        np_sub (phase_waveforms out pos) (phase_waveforms out neg)
        = map (fun x => sqrt 3 * scaling out
                        * sin (omega p * x + phase_angles pos + PI / 6))
              (time out)).
Proof.
  intros H. split.
  { destruct (run_facts p out H) as (_ & _ & m & _ & _ & _ & _ & Hvol).
    exact Hvol. }
  intros pos neg Hin. rewrite !(phase_map p out _ H).
  unfold np_sub. rewrite zip_with_map. apply map_ext. intros x.
  rewrite (pair_lag (omega p * x) pos neg Hin).
  pose proof (line_difference (omega p * x + phase_angles pos)) as E.
  transitivity (scaling out * (sin (omega p * x + phase_angles pos)
                  - sin (omega p * x + phase_angles pos - 2 * (PI / 3))));
    [ring |].
  rewrite E. ring.
Qed.

Lemma line_to_line_sinusoid_witness :
  exists out,
    Thi.run one_sample = Ok out
    /\ np_sub (phase_waveforms out PhaseA) (phase_waveforms out PhaseB)
       = map (fun x => sqrt 3 * scaling out
                       * sin (omega one_sample * x + phase_angles PhaseA + PI / 6))
             (time out).
Proof.
  destruct one_sample_max_modulation as (m0 & Hm0 & _).
  pose proof (run_ok one_sample [0] m0 t_one_sample Hm0) as Hrun.
  eexists. split; [exact Hrun |].
  apply (proj2 (line_to_line_sinusoid one_sample _ Hrun)).
  left. reflexivity.
Defined.




(** *** Metrics *)





(** *** Samples *)








(** X10.  With a zero gain the run is that of plain sinusoids: every
    phase waveform is the scaled fundamental, and the largest absolute
    reference is at most 1. *)
Theorem zero_ratio_disables_injection p out :
  third_harmonic_ratio p = 0 ->
  Thi.run p = Ok out ->
  (forall ph,
     phase_waveforms out ph = scaled_fundamentals p (time out) (scaling out) ph)
  /\ exists m,
       Thi.max_modulation (Thi.combined_waveforms p (time out)) = Ok m
       /\ m <= 1.
Proof.
  intros Hk H. split.
  - intros ph. rewrite (phase_map p out ph H).
    unfold scaled_fundamentals, np_scale, fundamental. rewrite map_map.
    apply map_ext. intros x. rewrite Hk. ring.
  - destruct (modulation_range_run p out H) as (m & Hm & (_ & Hhi) & _).
    exists m. split; [exact Hm |]. rewrite Hk, Rabs_R0 in Hhi. lra.
Qed.

Lemma one_sample_plain_runs : exists out, Thi.run one_sample_plain = Ok out.
Proof.
  assert (Ht := t_ok one_sample_plain ltac:(simpl; lra)
                  ltac:(unfold N; simpl; lia)).
  match type of Ht with
  | _ = Ok ?ts => destruct (max_modulation_ok one_sample_plain ts) as (m & Hm)
  end.
  { discriminate. }
  eexists. exact (run_ok one_sample_plain _ m Ht Hm).
Qed.

Lemma zero_ratio_disables_injection_witness :
  exists out,
    Thi.run one_sample_plain = Ok out
    /\ phase_waveforms out PhaseA
       = scaled_fundamentals one_sample_plain (time out) (scaling out) PhaseA.
Proof.
  destruct one_sample_plain_runs as (out & H). exists out. split; [exact H |].
  apply (proj1 (zero_ratio_disables_injection one_sample_plain out eq_refl H)).
Defined.

(** *** [test.py] *)




End WaveformExtras.

(** ** More on the ingestor, the figures and [main] *)

Module BodeExtras.

Import Bode BodeFacts Render.
Local Open Scope string_scope.

(** *** The delimiter *)

Lemma find_first {A : Type} (f : A -> bool) (l : list A) :
  match find f l with
  | Some a => exists l1 l2, l = (l1 ++ a :: l2)%list /\ f a = true
                            /\ forall b, In b l1 -> f b = false
  | None => forall b, In b l -> f b = false
  end.
Proof.
  induction l as [| a l IH]; simpl; [intros b [] |].
  destruct (f a) eqn:E.
  - exists [], l. split; [reflexivity |]. split; [exact E | intros b []].
  - destruct (find f l) as [a' |].
    + destruct IH as (l1 & l2 & -> & Ha & Hl1).
      exists (a :: l1), l2. split; [reflexivity |]. split; [exact Ha |].
      intros b [<- | Hb]; [exact E | apply Hl1; exact Hb].
    + intros b [<- | Hb]; [exact E | apply IH; exact Hb].
Qed.

(** X12.  When the sniffer gives up, the delimiter is the first of comma,
    semicolon, tab and space that occurs in the sample, and the comma when
    none does.  With a sniffer that only returns delimiters it was offered
    and that occur in the sample, the delimiter is always one of the four,
    and it occurs in the sample unless it is the comma. *)
Theorem sniff_delimiter_choice sniff sample :
  (sniff sample = None ->
   (exists l1 l2,
      delimiters = (l1 ++ sniff_delimiter sniff sample :: l2)%list
      /\ Py.contains (sniff_delimiter sniff sample) sample = true
      /\ forall d, In d l1 -> Py.contains d sample = false)
   \/ (sniff_delimiter sniff sample = ","%char
       /\ forall d, In d delimiters -> Py.contains d sample = false))
  /\ (sniffer_sound sniff ->
      In (sniff_delimiter sniff sample) delimiters
      /\ (Py.contains (sniff_delimiter sniff sample) sample = true
          \/ sniff_delimiter sniff sample = ","%char)).
Proof.
  pose proof (find_first (fun d => Py.contains d sample) delimiters) as Hf.
  unfold sniff_delimiter. split.
  - intros ->. destruct (find _ delimiters) as [d |].
    + left. exact Hf.
    + right. split; [reflexivity | exact Hf].
  - intros Hs. destruct (sniff sample) as [d |] eqn:E.
    + apply Hs in E as (Hin & Hc). split; [exact Hin | left; exact Hc].
    + destruct (find _ delimiters) as [d |].
      * destruct Hf as (l1 & l2 & Hl & Hc & _). split; [| left; exact Hc].
        rewrite Hl. apply in_or_app. right. left. reflexivity.
      * split; [left; reflexivity | right; reflexivity].
Qed.

Lemma sniff_delimiter_choice_witness :
  sniff_delimiter no_sniffer "a;b c" = ";"%char.
Proof.
  destruct (proj1 (sniff_delimiter_choice no_sniffer "a;b c") eq_refl)
    as [(l1 & l2 & _ & Hc & _) | (_ & Hnone)].
  - reflexivity.
  - specialize (Hnone ";"%char (or_intror (or_introl eq_refl))).
    vm_compute in Hnone. discriminate Hnone.
Defined.

(** *** Columns *)

Lemma coerce_cells_length cells : forall numeric,
  (List.length (coerce_cells cells numeric)
   <= List.length numeric + List.length cells)%nat.
Proof.
  induction cells as [| c cells IH]; intros numeric; simpl; [lia |].
  destruct (coerce_cell c); simpl; [| lia].
  specialize (IH (numeric ++ [f])%list). rewrite length_app in IH. simpl in IH. lia.
Qed.

Lemma coerce_row_length row :
  (List.length (coerce_row row) <= 2)%nat
  /\ (List.length (coerce_row row) <= List.length row)%nat.
Proof.
  unfold coerce_row. pose proof (coerce_cells_length (firstn 2 row) []) as H.
  rewrite length_firstn in H. cbn [List.length Nat.add] in H. lia.
Qed.

Lemma append_step_ordered columns numeric :
  columns_ordered columns -> (List.length numeric <= 2)%nat ->
  columns_ordered (append_values (grow columns (List.length numeric)) numeric).
Proof.
  unfold grow. intros Hc Hn.
  destruct numeric as [| a [| b [| c numeric]]]; simpl in Hn; try lia;
    destruct columns as [| x [| y [| z columns]]]; simpl in *;
    rewrite ?length_app; simpl; try lia; try exact I; try contradiction.
Qed.

Lemma scan_rows_ordered rows : forall skipped_label columns,
  columns_ordered columns ->
  columns_ordered (scan_rows rows skipped_label columns).
Proof.
  induction rows as [| row rows IH]; intros skipped_label columns Hc; simpl;
    [exact Hc |].
  destruct (row_is_empty row); [apply IH; exact Hc |].
  destruct skipped_label; simpl; [| apply IH; exact Hc].
  destruct (Py.startswith hash (first_cell row)); [apply IH; exact Hc |].
  pose proof (coerce_row_length row) as (Hn & _).
  destruct (coerce_row row) as [| v numeric] eqn:E; [apply IH; exact Hc |].
  apply IH. apply (append_step_ordered columns (v :: numeric)); assumption.
Qed.

Lemma read_columns sniff text labels columns :
  read_labels_and_data sniff text = Ok (labels, columns) ->
  exists delimiter rows,
    Csv.reader delimiter text = Some rows
    /\ columns = firstn 2 (scan_rows rows false []).
Proof.
  unfold read_labels_and_data. intros H.
  destruct (non_empty_lines text) as [| labels_line rest]; [discriminate |].
  match type of H with
  | context [Csv.reader ?d text] =>
      exists d; destruct (Csv.reader d text) as [rows |]; [| discriminate]
  end.
  exists rows. split; [reflexivity |].
  destruct (_ <? _)%nat; [discriminate |].
  destruct (_ <? _)%nat; [discriminate |].
  congruence.
Qed.

(** X13.  Whatever the rows, the scan collects at most two columns and
    the second is never longer than the first; so in what the ingestor
    returns the y column is at most as long as the x column. *)
Theorem y_column_not_longer sniff text labels x y :
  read_labels_and_data sniff text = Ok (labels, [x; y]) ->
  (List.length y <= List.length x)%nat.
Proof.
  intros H. apply read_columns in H as (d & rows & _ & Hc).
  pose proof (scan_rows_ordered rows false [] I) as Ho.
  destruct (scan_rows rows false []) as [| a [| b [| c l]]];
    simpl in Hc, Ho; try discriminate; try contradiction.
  injection Hc as -> ->. exact Ho.
Qed.

Lemma y_column_not_longer_witness :
  (List.length [f_2] <= List.length [f_1; f_3])%nat.
Proof.
  apply (y_column_not_longer no_sniffer ragged_text ["f"; "mag"]).
  vm_compute. reflexivity.
Defined.


Lemma coerce_all_length cells : forall vs,
  coerce_all cells = Some vs -> List.length vs = List.length cells.
Proof.
  induction cells as [| c cells IH]; simpl; intros vs H.
  - injection H as <-. reflexivity.
  - destruct (coerce_cell c); [| discriminate].
    destruct (coerce_all cells) as [ws |]; [| discriminate].
    injection H as <-. simpl. rewrite (IH ws eq_refl). reflexivity.
Qed.

Lemma coerce_row_full row :
  (2 <= List.length row)%nat ->
  coerce_row row = [] \/ exists a b, coerce_row row = [a; b].
Proof.
  intros Hr. unfold coerce_row. rewrite coerce_cells_all.
  destruct (coerce_all (firstn 2 row)) as [vs |] eqn:E; [| left; reflexivity].
  apply coerce_all_length in E. rewrite length_firstn in E.
  destruct vs as [| a [| b [| c vs]]]; cbn [List.length] in E; try lia.
  right. exists a, b. reflexivity.
Qed.

Lemma scan_rows_even rows :
  Forall (fun row => row_is_empty row = true \/ (2 <= List.length row)%nat)
         rows ->
  forall skipped_label columns,
    columns_even columns ->
    columns_even (scan_rows rows skipped_label columns).
Proof.
  induction 1 as [| row rows Hrow _ IH]; intros skipped_label columns Hc; simpl;
    [exact Hc |].
  destruct (row_is_empty row) eqn:He; [apply IH; exact Hc |].
  destruct Hrow as [Hrow | Hrow]; [discriminate |].
  destruct skipped_label; simpl; [| apply IH; exact Hc].
  destruct (Py.startswith hash (first_cell row)); [apply IH; exact Hc |].
  destruct (coerce_row_full row Hrow) as [-> | (a & b & ->)];
    [apply IH; exact Hc |].
  apply IH. destruct Hc as [-> | (x & y & -> & Hxy)].
  - right. exists [a], [b]. split; reflexivity.
  - right. exists (x ++ [a])%list, (y ++ [b])%list. split; [reflexivity |].
    rewrite !length_app, Hxy. reflexivity.
Qed.

(** X14.  When every row that is not blank has at least two cells, the
    scan leaves either no column or two columns of the same length. *)
Theorem full_rows_give_equal_columns rows skipped_label :
  Forall (fun row => row_is_empty row = true \/ (2 <= List.length row)%nat)
         rows ->
  scan_rows rows skipped_label [] = []
  \/ exists x y, scan_rows rows skipped_label [] = [x; y]
                 /\ List.length x = List.length y.
Proof.
  intros H. apply (scan_rows_even rows H skipped_label []). left. reflexivity.
Qed.

Lemma full_rows_give_equal_columns_witness :
  exists x y,
    scan_rows [["f"; "mag"]; []; ["1"; "2"]; ["3"; ""; "9"]] false [] = [x; y]
    /\ List.length x = List.length y.
Proof.
  destruct (full_rows_give_equal_columns
              [["f"; "mag"]; []; ["1"; "2"]; ["3"; ""; "9"]] false)
    as [H | H].
  - repeat constructor; (left; reflexivity) || (right; simpl; lia).
  - vm_compute in H. discriminate H.
  - exact H.
Defined.

(** *** Rows that are passed over *)

(** X15.  A blank row changes nothing wherever it stands, and neither
    does a row whose first cell starts with the comment marker once the
    label row has been passed: the columns are those of the rows without
    it. *)
Theorem blank_and_comment_rows_ignored before row rest skipped_label columns :
  row_is_empty row = true
  \/ (label_skipped before skipped_label = true
      /\ Py.startswith hash (first_cell row) = true) ->
  scan_rows (before ++ row :: rest) skipped_label columns
  = scan_rows (before ++ rest) skipped_label columns.
Proof.
  intros H. rewrite !scan_rows_app. simpl.
  destruct H as [He | (Hs & Hc)].
  - rewrite He. reflexivity.
  - rewrite Hs, Hc. simpl. destruct (row_is_empty row); reflexivity.
Qed.

Lemma blank_and_comment_rows_ignored_witness :
  scan_rows [["f"; "mag"]; ["1"; "2"]; [String hash "note"; "x"]; ["3"; "4"]]
            false []
  = scan_rows [["f"; "mag"]; ["1"; "2"]; ["3"; "4"]] false [].
Proof.
  apply (blank_and_comment_rows_ignored [["f"; "mag"]; ["1"; "2"]]
           [String hash "note"; "x"] [["3"; "4"]] false []).
  right. split; reflexivity.
Defined.

(** *** Rows of one cell *)

Lemma append_values_length numeric : forall columns,
  List.length (append_values columns numeric) = List.length columns.
Proof.
  induction numeric as [| v numeric IH]; intros [| col columns]; simpl;
    try reflexivity.
  rewrite IH. reflexivity.
Qed.

Lemma grow_length columns n :
  List.length (grow columns n) = Nat.max (List.length columns) n.
Proof. unfold grow. rewrite length_app, repeat_length. lia. Qed.

Lemma scan_rows_narrow rows :
  Forall (fun row => (List.length row <= 1)%nat) rows ->
  forall skipped_label columns,
    (List.length columns <= 1)%nat ->
    (List.length (scan_rows rows skipped_label columns) <= 1)%nat.
Proof.
  induction 1 as [| row rows Hrow _ IH]; intros skipped_label columns Hc; simpl;
    [exact Hc |].
  destruct (row_is_empty row); [apply IH; exact Hc |].
  destruct skipped_label; simpl; [| apply IH; exact Hc].
  destruct (Py.startswith hash (first_cell row)); [apply IH; exact Hc |].
  pose proof (coerce_row_length row) as (_ & Hn).
  destruct (coerce_row row) as [| v numeric] eqn:E; [apply IH; exact Hc |].
  apply IH. rewrite append_values_length, grow_length.
  cbn [List.length] in *. lia.
Qed.

(** X16.  Rows of at most one cell never open a second column, so the
    test for two columns fails on them. *)
Theorem one_cell_rows_give_one_column rows skipped_label :
  Forall (fun row => (List.length row <= 1)%nat) rows ->
  (List.length (scan_rows rows skipped_label []) <? 2)%nat = true.
Proof.
  intros H. apply Nat.ltb_lt.
  pose proof (scan_rows_narrow rows H skipped_label [] ltac:(simpl; lia)). lia.
Qed.

Lemma one_cell_rows_give_one_column_witness :
  (List.length (scan_rows [["f"]; ["1"]; ["2"]] false []) <? 2)%nat = true.
Proof.
  apply one_cell_rows_give_one_column.
  repeat constructor.
Defined.


(** *** Trimming *)

Lemma lstrip_first p s c :
  first_char (Py.lstrip_by p s) = Some c -> p c = false.
Proof.
  induction s as [| a s IH]; simpl; [discriminate |].
  destruct (p a) eqn:E; [exact IH |]. simpl. intros [= <-]. exact E.
Qed.

Lemma rstrip_last p s c :
  last_char (Py.rstrip_by p s) = Some c -> p c = false.
Proof.
  induction s as [| a s IH]; simpl; [discriminate |].
  destruct (Py.rstrip_by p s) as [| d r] eqn:E.
  - destruct (p a) eqn:Ea; simpl; [discriminate |]. intros [= <-]. exact Ea.
  - intros H. apply IH. exact H.
Qed.

Lemma rstrip_first p s c :
  first_char (Py.rstrip_by p s) = Some c -> first_char s = Some c.
Proof.
  destruct s as [| a s]; simpl; [discriminate |].
  destruct (Py.rstrip_by p s); [destruct (p a); [discriminate |] |];
    simpl; intros H; exact H.
Qed.

(** What remains after trimming neither starts nor ends with a trimmed
    character. *)
Lemma strip_ends p s c :
  first_char (Py.strip_by p s) = Some c \/ last_char (Py.strip_by p s) = Some c ->
  p c = false.
Proof.
  unfold Py.strip_by. intros [H | H].
  - apply rstrip_first in H. exact (lstrip_first p s c H).
  - exact (rstrip_last p _ c H).
Qed.

Lemma lstrip_all p w : all_chars p w = true -> Py.lstrip_by p w = "".
Proof.
  induction w as [| a w IH]; simpl; [reflexivity |].
  intros H. apply andb_true_iff in H as (-> & H). apply IH. exact H.
Qed.

Lemma rstrip_all p w : all_chars p w = true -> Py.rstrip_by p w = "".
Proof.
  induction w as [| a w IH]; simpl; [reflexivity |].
  intros H. apply andb_true_iff in H as (-> & H). rewrite IH by exact H.
  reflexivity.
Qed.

Lemma lstrip_app_l p w x :
  all_chars p w = true -> Py.lstrip_by p (w ++ x) = Py.lstrip_by p x.
Proof.
  induction w as [| a w IH]; simpl; [reflexivity |].
  intros H. apply andb_true_iff in H as (-> & H). apply IH. exact H.
Qed.

Lemma rstrip_app_r p w x :
  all_chars p w = true -> Py.rstrip_by p (x ++ w) = Py.rstrip_by p x.
Proof.
  intros H. induction x as [| a x IH]; simpl.
  - apply rstrip_all. exact H.
  - rewrite IH. reflexivity.
Qed.

Lemma lstrip_app_r p w x :
  all_chars p w = true ->
  Py.lstrip_by p (x ++ w)
  = if Py.is_empty (Py.lstrip_by p x) then "" else Py.lstrip_by p x ++ w.
Proof.
  intros H. induction x as [| a x IH]; simpl.
  - apply lstrip_all. exact H.
  - destruct (p a); [exact IH | reflexivity].
Qed.

Lemma strip_padding p w1 w2 x :
  all_chars p w1 = true -> all_chars p w2 = true ->
  Py.strip_by p (w1 ++ x ++ w2) = Py.strip_by p x.
Proof.
  intros H1 H2. unfold Py.strip_by.
  rewrite lstrip_app_l by exact H1. rewrite lstrip_app_r by exact H2.
  destruct (Py.lstrip_by p x) as [| a u]; [reflexivity |].
  cbn [Py.is_empty]. apply rstrip_app_r. exact H2.
Qed.

(** X17.  White space around a cell does not count: a cell padded with
    white space on either side is trimmed to the same text, converts to the
    same value, and is blank exactly when the cell is. *)
Theorem cell_padding_ignored w1 w2 cell :
  all_chars Py.isspace w1 = true -> all_chars Py.isspace w2 = true ->
  Py.strip (w1 ++ cell ++ w2) = Py.strip cell
  /\ coerce_cell (w1 ++ cell ++ w2) = coerce_cell cell
  /\ row_is_empty [w1 ++ cell ++ w2] = row_is_empty [cell].
Proof.
  intros H1 H2.
  assert (E : Py.strip (w1 ++ cell ++ w2) = Py.strip cell)
    by (apply strip_padding; assumption).
  split; [exact E |]. unfold coerce_cell, row_is_empty. simpl.
  rewrite E. split; reflexivity.
Qed.

Lemma cell_padding_ignored_witness :
  coerce_cell (" " ++ "0.5" ++ String tab " ") = Some f_0_5.
Proof.
  rewrite (proj1 (proj2 (cell_padding_ignored " " (String tab " ") "0.5"
                           eq_refl eq_refl))).
  vm_compute. reflexivity.
Defined.

(** *** Labels *)

Lemma read_labels sniff text labels columns :
  read_labels_and_data sniff text = Ok (labels, columns) ->
  exists delimiter labels_line, labels = parse_labels delimiter labels_line.
Proof.
  unfold read_labels_and_data. intros H.
  destruct (non_empty_lines text) as [| labels_line rest]; [discriminate |].
  destruct (Csv.reader _ text) as [rows |]; [| discriminate].
  match type of H with
  | context [parse_labels ?d ?l] => exists d, l
  end.
  destruct (_ <? _)%nat; [discriminate |].
  destruct (_ <? _)%nat; [discriminate |].
  congruence.
Qed.

Lemma firstn_incl {A : Type} n (l : list A) a : In a (firstn n l) -> In a l.
Proof.
  intros H. rewrite <- (firstn_skipn n l). apply in_or_app. left. exact H.
Qed.

Lemma label_shape delimiter labels_line l :
  In l (parse_labels delimiter labels_line) ->
  Py.truthy l = true
  /\ exists tok, l = Py.strip_chars quotes (Py.strip tok).
Proof.
  unfold parse_labels, header_tokens. intros H.
  apply firstn_incl in H. apply filter_In in H as (H & Ht).
  split; [exact Ht |].
  apply in_map_iff in H as (tok & <- & _). exists tok. reflexivity.
Qed.

(** X18.  Every label the ingestor returns is a non-empty text that
    neither starts nor ends with a single or a double quote. *)
Theorem labels_are_unquoted sniff text labels columns l :
  read_labels_and_data sniff text = Ok (labels, columns) ->
  In l labels ->
  l <> ""
  /\ forall c, first_char l = Some c \/ last_char l = Some c ->
               c <> Csv.quotechar /\ c <> apostrophe.
Proof.
  intros H Hin. apply read_labels in H as (d & line & ->).
  apply label_shape in Hin as (Ht & tok & ->). split.
  - intros E. rewrite E in Ht. discriminate Ht.
  - intros c Hc. unfold Py.strip_chars in Hc. apply strip_ends in Hc.
    unfold quotes in Hc. simpl in Hc.
    apply orb_false_iff in Hc as (H1 & H2).
    apply orb_false_iff in H2 as (H2 & _).
    apply Ascii.eqb_neq in H1. apply Ascii.eqb_neq in H2. auto.
Qed.

Lemma labels_are_unquoted_witness : "mag" <> "".
Proof.
  apply (labels_are_unquoted no_sniffer example_text ["f"; "mag"]
           [[f_10; f_100]; [f_0_5; f_0_1]] "mag").
  - vm_compute. reflexivity.
  - right. left. reflexivity.
Defined.


(** *** Figures *)

(** X19.  [plot_bode_for_file] fails exactly when the ingestor fails, with
    the exception of the ingestor; neither of its two tuple assignments ever
    raises.  When the ingestor returns, the figure holds one trace named
    after the file with the two columns, the x axis is logarithmic and
    titled with the first label, the y axis is titled with the second, and
    the file written is the stem followed by [_bode.html]. *)
Theorem single_plot_follows_ingestion sniff path :
  match read_labels_and_data sniff (content path) with
  | Raise e => plot_bode_for_file sniff path = Raise (ParseFailed e)
  | Ok (labels, cols) =>
      exists x_label y_label x y,
        labels = [x_label; y_label] /\ cols = [x; y]
        /\ plot_bode_for_file sniff path
           = Ok ({| data := [mkTrace (stem path) x y];
                    title := stem path ++ " Bode Magnitude";
                    xaxis := {| title_text := Some x_label; log_type := true |};
                    yaxis := {| title_text := Some y_label; log_type := false |} |},
                 stem path ++ "_bode.html")
  end.
Proof.
  unfold plot_bode_for_file.
  destruct (read_labels_and_data sniff (content path)) as [[labels cols] | e]
    eqn:E; [| reflexivity].
  destruct (read_ok_shape sniff _ labels cols E) as (a & b & x & y & -> & ->).
  exists a, b, x, y. repeat split.
Qed.

(** The number of traces and of reports: one or the other for each
    file. *)
Lemma every_file_accounted sniff files :
  (List.length (flat_map (trace_of sniff) files)
   + List.length (flat_map (report_of sniff) files))%nat
  = List.length files
  /\ List.length (flat_map (trace_of sniff) files)
     = List.length (filter (parses sniff) files).
Proof.
  induction files as [| fp files (IH1 & IH2)]; simpl; [split; reflexivity |].
  rewrite !length_app. unfold trace_of at 1 3, report_of at 1, parses at 1.
  destruct (read_labels_and_data sniff (content fp)) as [[labels cols] | e]
    eqn:E.
  - destruct (read_ok_shape sniff _ labels cols E) as (a & b & x & y & -> & ->).
    simpl. split; lia.
  - simpl. split; lia.
Qed.

Lemma labels_truthy sniff text labels columns :
  read_labels_and_data sniff text = Ok (labels, columns) ->
  forall l, In l labels -> Py.truthy l = true.
Proof.
  intros H l Hin. apply read_labels in H as (d & line & ->).
  apply label_shape in Hin as (Ht & _). exact Ht.
Qed.

(** X20.  When [plot_overlay] completes, every candidate file is either
    one trace of the figure or one skipped file, the figure has at least one
    trace, the file written is [bode_all.html], and both axes carry a
    non-empty title: the branch that leaves the x axis without a title is
    never taken. *)
Theorem overlay_figure_complete sniff files fig out :
  plot_overlay_html sniff files = Ok (fig, out) ->
  out = "bode_all.html"
  /\ data fig = flat_map (trace_of sniff) files
  /\ (List.length (data fig)
      + List.length (flat_map (report_of sniff) files))%nat
     = List.length files
  /\ (1 <= List.length (data fig))%nat
  /\ log_type (xaxis fig) = true
  /\ exists x_label y_label,
       title_text (xaxis fig) = Some x_label /\ x_label <> ""
       /\ title_text (yaxis fig) = Some y_label /\ y_label <> "".
Proof.
  unfold plot_overlay_html, plot_overlay. intros H.
  pose proof (overlay_loop sniff files overlay_init) as Hl. cbv zeta in Hl.
  destruct Hl as (Ht & _ & Ha & Hx). simpl in Ht, Ha, Hx.
  set (st := fold_left (overlay_step sniff) files overlay_init) in *.
  destruct (Nat.eqb_spec (added st) 0) as [E | E]; [discriminate |].
  simpl in H. injection H as <- <-.
  destruct (every_file_accounted sniff files) as (Hsum & Hcount).
  split; [reflexivity |]. cbn [data overlay_figure xaxis yaxis log_type title_text].
  split; [exact Ht |]. rewrite Ht.
  split; [exact Hsum |]. split; [rewrite Hcount; lia |].
  split; [reflexivity |].
  destruct (find (parses sniff) files) as [first |] eqn:Hf.
  - apply find_some in Hf as (_ & Hp). unfold parses in Hp.
    unfold labels_of in Hx.
    destruct (read_labels_and_data sniff (content first))
      as [[labels columns] |] eqn:E1; [| discriminate].
    pose proof (labels_truthy sniff _ labels columns E1) as Htr.
    destruct (read_ok_shape sniff _ labels columns E1)
      as (a & b & x & y & -> & ->).
    simpl in Hx. injection Hx as -> ->.
    assert (Ta : Py.truthy a = true) by (apply Htr; left; reflexivity).
    assert (Tb : Py.truthy b = true) by (apply Htr; right; left; reflexivity).
    exists a, b. simpl. rewrite Ta, Tb.
    repeat split; intros Hn; subst; discriminate.
  - exfalso. apply E. rewrite Ha. apply filter_none.
    intros fp Hin. apply (find_none _ _ Hf fp Hin).
Qed.

Lemma overlay_figure_complete_witness :
  exists fig,
    plot_overlay_html no_sniffer candidates = Ok (fig, "bode_all.html")
    /\ List.length (data fig) = 2%nat.
Proof.
  destruct (plot_overlay_html no_sniffer candidates) as [[fig out] | e] eqn:E;
    [| vm_compute in E; discriminate E].
  destruct (overlay_figure_complete no_sniffer candidates fig out E)
    as (-> & Hd & _).
  exists fig. split; [reflexivity |]. rewrite Hd. vm_compute. reflexivity.
Defined.

Lemma filter_exists {A : Type} (f : A -> bool) (l : list A) :
  (List.length (filter f l) =? 0)%nat = negb (existsb f l).
Proof.
  induction l as [| a l IH]; simpl; [reflexivity |].
  destruct (f a); simpl; [reflexivity | exact IH].
Qed.

(** X21.  [main] prints a single line when it is given no file.
    Otherwise it announces the number of files, then one line for each
    file the ingestor raised on, in the order of the files, and ends with
    the name of the combined plot when at least one file parses and with
    the failure of the overlay when none does. *)
Theorem main_reports sniff files :
  main sniff [] = [NoFilesFound]
  /\ (files <> [] ->
      main sniff files
      = (Found (List.length files)
         :: map (fun r => Skipping (fst r) (snd r))
                (flat_map (report_of sniff) files)
         ++ [if existsb (parses sniff) files
             then Combined "bode_all.html"
             else Failed NoUsableInput])%list).
Proof.
  split; [reflexivity |]. intros Hne.
  destruct files as [| fp files]; [contradiction |].
  set (fs := (fp :: files)%list).
  change (main sniff fs)
    with (Found (List.length fs)
          :: map (fun r => Skipping (fst r) (snd r))
                 (skipped (fold_left (overlay_step sniff) fs overlay_init))
          ++ [match plot_overlay_html sniff fs with
              | Ok (_, out) => Combined out
              | Raise e => Failed e
              end])%list.
  clearbody fs. unfold plot_overlay_html, plot_overlay.
  pose proof (overlay_loop sniff fs overlay_init) as Hl.
  cbv zeta in Hl. destruct Hl as (_ & Hs & Ha & _).
  cbn [skipped added overlay_init app Nat.add] in Hs, Ha.
  rewrite Hs, Ha, filter_exists.
  destruct (existsb (parses sniff) fs); reflexivity.
Qed.

Lemma main_reports_witness :
  main no_sniffer candidates
  = [Found 3; Skipping "b.csv" (ParseFailed EmptyInput);
     Combined "bode_all.html"].
Proof.
  rewrite (proj2 (main_reports no_sniffer candidates)) by discriminate.
  vm_compute. reflexivity.
Defined.

(** *** The reader *)

(** X22.  The loop over the rows fails in the reader through the limit on
    the size of a field only.  On a text of at most 131072 characters the
    reader yields its rows for every delimiter, so the ingestor does not
    raise the error of the reader; a line that is one field of more than
    131072 copies of an ordinary character makes the reader, and with it
    the ingestor, raise;
    and the other error of the reader, a character after a carriage return
    inside a line, needs a line that a file opened with an empty [newline]
    never hands over. *)
Theorem rows_loop_raises_past_limit_only :
  (forall delimiter text,
     (Py.len text <= Csv.field_limit)%N ->
     exists rows, Csv.reader delimiter text = Some rows)
  /\ (forall sniff text,
        (Py.len text <= Csv.field_limit)%N ->
        read_labels_and_data sniff text <> Raise CsvError)
  /\ (forall delimiter c n,
        Ascii.eqb c delimiter = false ->
        Ascii.eqb c Csv.quotechar = false ->
        Csv.is_newline c = false ->
        (Csv.field_limit < N.of_nat n)%N ->
        Csv.reader delimiter (Py.repeat_char c n) = None)
  /\ (forall sniff n,
        sniffer_sound sniff ->
        (Csv.field_limit < N.of_nat n)%N ->
        read_labels_and_data sniff (long_field n) = Raise CsvError)
  /\ (forall text,
        Forall (fun l => Csv.line_shaped l = true) (Py.readlines text))
  /\ Csv.line_shaped Csv.broken_line = false
  /\ Csv.parse_line ","%char Csv.parse_reset Csv.broken_line = None.
Proof.
  split; [exact CsvFacts.reader_total |]. split.
  { intros sniff text Hlen. unfold read_labels_and_data.
    destruct (non_empty_lines text) as [| line rest]; [discriminate |].
    match goal with
    | |- context [Csv.reader ?d text] =>
        destruct (CsvFacts.reader_total d text Hlen) as (rows & ->)
    end.
    destruct (_ <? _)%nat; [discriminate |].
    destruct (_ <? _)%nat; discriminate. }
  split; [exact CsvFacts.reader_long |].
  split; [exact BodeFacts.long_field_raises |].
  split; [| split; reflexivity].
  intros text. apply CsvFacts.readlines_go_shaped. reflexivity.
Qed.

Lemma rows_loop_raises_past_limit_only_witness :
  read_labels_and_data no_sniffer example_text <> Raise CsvError
  /\ exists n, read_labels_and_data no_sniffer (long_field n) = Raise CsvError.
Proof.
  destruct rows_loop_raises_past_limit_only as (_ & Hshort & _ & Hlong & _).
  split.
  - apply Hshort. vm_compute. discriminate.
  - exists (N.to_nat 131073). apply Hlong; [apply BodeFacts.no_sniffer_sound |].
    unfold Csv.field_limit. lia.
Defined.

End BodeExtras.
